(** * Omnisearch cache manager: a shallow embedding of [src/cache-manager.ts]
      and of the vault event handlers of [main.ts].

    The TypeScript code is asynchronous but runs in one cooperative context;
    every method is embedded as a computation in a state-and-exception monad
    over a [World] that holds the fields of the [CacheManager] singleton, the
    IndexedDB database, the console, the notices shown to the user and the
    arrays that callers share with the manager. An [await] is a bind. *)

From Stdlib Require Import ZArith NArith List String Ascii Lia Bool.
From Stdlib Require Import Sorting.Sorted Sorting.Permutation.
From stdpp Require Import base option gmap strings list fin_maps sorting.

Local Open Scope string_scope.
Local Open Scope Z_scope.

(** * Part I: the model *)

(** ** JavaScript values the code distinguishes *)

(** A value that may be [null] or [undefined]. *)
Inductive nullable (A : Type) : Type :=
| JNull
| JUndefined
| JValue (a : A).
Arguments JNull {A}.
Arguments JUndefined {A}.
Arguments JValue {A} a.

Record JsError := mkError { err_name : string; err_message : string }.

(** [new Error(msg)] *)
Definition Error (msg : string) : JsError := mkError "Error" msg.

Definition TypeError (msg : string) : JsError := mkError "TypeError" msg.

Inductive Outcome (A : Type) : Type :=
| Returned (a : A)
| Thrown (e : JsError).
Arguments Returned {A} a.
Arguments Thrown {A} e.

Inductive LogLevel := LevelLog | LevelWarn | LevelError.

Record LogEntry := mkLog {
  log_level : LogLevel;
  log_text : string;
  log_error : option JsError
}.

(** ** Strings *)

Module JsString.

Definition dquote : string := String (ascii_of_nat 34) EmptyString.

Definition crlf : string :=
  String (ascii_of_nat 13) (String (ascii_of_nat 10) EmptyString).

(** [s.substring(a, b)]: both indices are clamped to [0, length] and swapped
    when [a > b]. *)
Definition clamp (len i : Z) : Z := Z.max 0 (Z.min i len).

Definition substring_list {A} (l : list A) (a b : Z) : list A :=
  let len := Z.of_nat (List.length l) in
  let a' := clamp len a in
  let b' := clamp len b in
  let lo := Z.min a' b' in
  let hi := Z.max a' b' in
  firstn (Z.to_nat (hi - lo)) (skipn (Z.to_nat lo) l).

Definition substring (s : string) (a b : Z) : string :=
  string_of_list_ascii (substring_list (list_ascii_of_string s) a b).

(** [s.substring(a)] *)
Definition substring_from (s : string) (a : Z) : string :=
  substring s a (Z.of_nat (String.length s)).

(** [xs.join(sep)] *)
Definition join (sep : string) (xs : list string) : string :=
  String.concat sep xs.

(** [!s] for a string [s]: only the empty string is falsy. *)
Definition falsy (s : string) : bool := String.eqb s EmptyString.

(** [a < b] and [a > b] on strings: lexicographic on the code units. *)
Definition lt (a b : string) : bool := String.ltb a b.
Definition gt (a b : string) : bool := String.ltb b a.

(** [s.endsWith(suffix)] *)
Definition endsWith (s suffix : string) : bool :=
  let n := String.length suffix in
  let m := String.length s in
  (n <=? m)%nat && String.eqb (String.substring (m - n) n s) suffix.

End JsString.

(** ** Data model *)

Record IndexedDocument := mkDoc {
  doc_path : string;
  doc_basename : string;
  doc_content : string;
  doc_mtime : Z;
  doc_tags : list string;
  doc_aliases : string;
  doc_headings1 : string;
  doc_headings2 : string;
  doc_headings3 : string
}.

Record DocumentRef := mkRef { ref_path : string; ref_mtime : Z }.

(** A row of [database.minisearch]; [row_data] is the serialized index
    ([AsPlainObject]), of a type [Ix] left open. *)
Record CacheRow (Ix : Type) := mkCacheRow {
  row_date : string;
  row_paths : list DocumentRef;
  row_data : Ix
}.
Arguments mkCacheRow {Ix}.
Arguments row_date {Ix}.
Arguments row_paths {Ix}.
Arguments row_data {Ix}.

(** A row of [database.searchHistory] as the code handles it: [{ query }]
    when built by [addToSearchHistory], with its primary key when it comes
    from [toArray]. *)
Record HistoryRow := mkRow { row_id : option N; row_query : string }.

(** ** The IndexedDB tables *)

Module Dexie.

(** Modelled from the spec: the [./database] module that declares the two
    tables is not among the sources. Section 6 of the spec has
    [search_history] hold up to 10 rows [{ query }] whose order is
    significant, "insertion order = recency, newest last", read back most
    recent first. The table is a Dexie table with an auto-incremented
    primary key: rows are kept and returned in ascending key order, a row
    read with [toArray] carries its key, [add] keeps the key of a row that
    has one and draws a fresh one for a row that has none, and [clear]
    leaves the key generator alone. [addToSearchHistory] relies on that: it
    hands the rows it read back to [bulkAdd] whole, next to the new
    [{ query }]. *)
Record AutoTable := mkTable {
  t_rows : list (N * string);
  t_next : N
}.

Definition empty : AutoTable := mkTable [] 1.

(** A stored row as [toArray] returns it. *)
Definition stored (r : N * string) : HistoryRow := mkRow (Some (fst r)) (snd r).

Definition toArray (t : AutoTable) : list HistoryRow := map stored (t_rows t).

Definition clear (t : AutoTable) : AutoTable := mkTable [] (t_next t).

(** Ordered insertion; [None] is IndexedDB's [ConstraintError]. *)
Fixpoint insert_row (k : N) (q : string) (rows : list (N * string))
  : option (list (N * string)) :=
  match rows with
  | [] => Some [(k, q)]
  | (k', q') :: rest =>
      if (k <? k')%N then Some ((k, q) :: rows)
      else if (k =? k')%N then None
      else option_map (cons (k', q')) (insert_row k q rest)
  end.

Definition add (r : HistoryRow) (t : AutoTable) : option AutoTable :=
  match row_id r with
  | None =>
      match insert_row (t_next t) (row_query r) (t_rows t) with
      | Some rows => Some (mkTable rows (N.succ (t_next t)))
      | None => None
      end
  | Some k =>
      match insert_row k (row_query r) (t_rows t) with
      | Some rows => Some (mkTable rows (N.max (t_next t) (N.succ k)))
      | None => None
      end
  end.

(** [bulkAdd]: every row that can be added is added; the call fails when
    one of them could not. *)
Fixpoint bulkAdd (rs : list HistoryRow) (t : AutoTable) : AutoTable * bool :=
  match rs with
  | [] => (t, true)
  | r :: rest =>
      match add r t with
      | Some t' => bulkAdd rest t'
      | None => (fst (bulkAdd rest t), false)
      end
  end.

(** [descending_below b ks]: the keys [ks] decrease strictly and start
    below [b]. *)
Fixpoint descending_below (b : N) (ks : list N) : Prop :=
  match ks with
  | [] => True
  | k :: rest => (k < b)%N ∧ descending_below k rest
  end.

(** The invariant of a table: read from the newest row to the oldest, the
    keys decrease strictly and lie below the key generator. *)
Definition wf (t : AutoTable) : Prop :=
  descending_below (t_next t) (rev (map fst (t_rows t))).

(** The first key of [rows], if any, is at least [b]. *)
Definition above (b : N) (rows : list (N * string)) : Prop :=
  match rows with
  | [] => True
  | (k, _) :: _ => (b ≤ k)%N
  end.

End Dexie.

(** Modelled from the spec: [database.minisearch], declared in the missing
    [./database] module, is the spec's [index_snapshot] table; its rows are
    listed in the order [toArray] yields them and [add] puts a row behind
    the ones already there. [db_fault] is the error with which the database
    rejects every request when it cannot be opened or read. *)
Record Database (Ix : Type) := mkDb {
  searchHistory : Dexie.AutoTable;
  minisearch : list (CacheRow Ix);
  db_fault : option JsError
}.
Arguments mkDb {Ix}.
Arguments searchHistory {Ix}.
Arguments minisearch {Ix}.
Arguments db_fault {Ix}.

(** ** The world the cache manager runs in *)

Inductive HostCall :=
| CallCachedRead (path : string)
| CallExtractText (path : string)
| CallGetPdfText (path : string)
| CallGetImageText (path : string).

Record World (Ix : Type) := mkWorld {
  documents : gmap string IndexedDocument;      (* this.documents *)
  nextQueryIsEmpty : bool;                      (* this.nextQueryIsEmpty *)
  database : Database Ix;
  notices : list string;                        (* new Notice(...) *)
  console : list LogEntry;
  calls : list HostCall;                        (* reads done on the host *)
  arrays : gmap positive (list IndexedDocument) (* arrays held by callers *)
}.
Arguments mkWorld {Ix}.
Arguments documents {Ix}.
Arguments nextQueryIsEmpty {Ix}.
Arguments database {Ix}.
Arguments notices {Ix}.
Arguments console {Ix}.
Arguments calls {Ix}.
Arguments arrays {Ix}.

(** ** The monad of the methods: state and exceptions *)

Definition M (Ix A : Type) : Type := World Ix → Outcome A * World Ix.

Section Monad.
Context {Ix : Type}.

Definition ret {A} (a : A) : M Ix A := fun w => (Returned a, w).

Definition bind {A B} (m : M Ix A) (k : A → M Ix B) : M Ix B :=
  fun w =>
    match m w with
    | (Returned a, w') => k a w'
    | (Thrown e, w') => (Thrown e, w')
    end.

Definition throw {A} (e : JsError) : M Ix A := fun w => (Thrown e, w).

(** [try { body } catch (e) { handler(e) }] *)
Definition try_catch {A} (body : M Ix A) (handler : JsError → M Ix A) : M Ix A :=
  fun w =>
    match body w with
    | (Returned a, w') => (Returned a, w')
    | (Thrown e, w') => handler e w'
    end.

(** A result handed back by the host or by a plugin. *)
Definition lift {A} (o : Outcome A) : M Ix A := fun w => (o, w).

Definition gets {A} (f : World Ix → A) : M Ix A := fun w => (Returned (f w), w).

Definition modify (f : World Ix → World Ix) : M Ix unit :=
  fun w => (Returned tt, f w).

(** Field updates of the world. *)
Definition set_documents (f : gmap string IndexedDocument → gmap string IndexedDocument)
    (w : World Ix) : World Ix :=
  mkWorld (f (documents w)) (nextQueryIsEmpty w) (database w) (notices w)
          (console w) (calls w) (arrays w).

Definition set_nextQueryIsEmpty (b : bool) (w : World Ix) : World Ix :=
  mkWorld (documents w) b (database w) (notices w) (console w) (calls w) (arrays w).

Definition set_database (f : Database Ix → Database Ix) (w : World Ix) : World Ix :=
  mkWorld (documents w) (nextQueryIsEmpty w) (f (database w)) (notices w)
          (console w) (calls w) (arrays w).

Definition add_notice (msg : string) (w : World Ix) : World Ix :=
  mkWorld (documents w) (nextQueryIsEmpty w) (database w) (notices w ++ [msg])
          (console w) (calls w) (arrays w).

Definition add_log (e : LogEntry) (w : World Ix) : World Ix :=
  mkWorld (documents w) (nextQueryIsEmpty w) (database w) (notices w)
          (console w ++ [e]) (calls w) (arrays w).

Definition add_call (c : HostCall) (w : World Ix) : World Ix :=
  mkWorld (documents w) (nextQueryIsEmpty w) (database w) (notices w)
          (console w) (calls w ++ [c]) (arrays w).

Definition set_arrays
    (f : gmap positive (list IndexedDocument) → gmap positive (list IndexedDocument))
    (w : World Ix) : World Ix :=
  mkWorld (documents w) (nextQueryIsEmpty w) (database w) (notices w)
          (console w) (calls w) (f (arrays w)).

Definition console_log (text : string) : M Ix unit :=
  modify (add_log (mkLog LevelLog text None)).
Definition console_warn (text : string) (e : option JsError) : M Ix unit :=
  modify (add_log (mkLog LevelWarn text e)).
Definition console_error (text : string) (e : option JsError) : M Ix unit :=
  modify (add_log (mkLog LevelError text e)).

(** [new Notice(msg)] *)
Definition Notice (msg : string) : M Ix unit := modify (add_notice msg).

End Monad.

#[global] Instance M_ret {Ix} : MRet (M Ix) := λ A, ret.
#[global] Instance M_bind {Ix} : MBind (M Ix) := λ A B k m, bind m k.

(** ** Requests to the database *)

Section Requests.
Context {Ix : Type}.

(** Every request is rejected while the database is at fault. *)
Definition db_request : M Ix unit :=
  fun w =>
    match db_fault (database w) with
    | Some e => (Thrown e, w)
    | None => (Returned tt, w)
    end.

Definition set_searchHistory (t : Dexie.AutoTable) (d : Database Ix) : Database Ix :=
  mkDb t (minisearch d) (db_fault d).

Definition set_minisearch (rows : list (CacheRow Ix)) (d : Database Ix) : Database Ix :=
  mkDb (searchHistory d) rows (db_fault d).

Definition BulkError : JsError :=
  mkError "BulkError" "searchHistory.bulkAdd(): Key already exists in the object store".

Definition searchHistory_toArray : M Ix (list HistoryRow) :=
  db_request;;
  gets (fun w => Dexie.toArray (searchHistory (database w))).

Definition searchHistory_clear : M Ix unit :=
  db_request;;
  modify (set_database (fun d => set_searchHistory (Dexie.clear (searchHistory d)) d)).

Definition searchHistory_bulkAdd (rs : list HistoryRow) : M Ix unit :=
  db_request;;
  '(table, ok) ← gets (fun w => Dexie.bulkAdd rs (searchHistory (database w)));
  modify (set_database (set_searchHistory table));;
  if ok : bool then mret tt else throw BulkError.

Definition minisearch_toArray : M Ix (list (CacheRow Ix)) :=
  db_request;;
  gets (fun w => minisearch (database w)).

Definition minisearch_clear : M Ix unit :=
  db_request;;
  modify (set_database (set_minisearch [])).

Definition minisearch_add (r : CacheRow Ix) : M Ix unit :=
  db_request;;
  modify (set_database (fun d => set_minisearch (minisearch d ++ [r]) d)).

End Requests.

(** ** What the host application and the other modules provide *)

Record TFile := mkFile {
  file_path : string;
  file_name : string;       (* last segment of the path, with extension *)
  file_basename : string;   (* the name without its extension *)
  file_mtime : Z            (* file.stat.mtime *)
}.

Record Loc := mkLoc { loc_line : Z; loc_col : Z; loc_offset : Z }.
Record Pos := mkPos { pos_start : Loc; pos_end : Loc }.
Record SectionCache := mkSection { sec_type : string; sec_position : Pos }.

(** A frontmatter value, as far as its truthiness goes. *)
Inductive FmValue :=
| FmString (s : string)
| FmBool (b : bool)
| FmNumber (z : Z)
| FmNull.

Definition truthy (v : option FmValue) : bool :=
  match v with
  | Some (FmString s) => negb (JsString.falsy s)
  | Some (FmBool b) => b
  | Some (FmNumber z) => negb (z =? 0)
  | Some FmNull | None => false
  end.

Record CachedMetadata := mkMeta {
  frontmatter : option (gmap string FmValue);
  sections : option (list SectionCache)
}.

(** A value returned by [JSON.parse]. The cast [as CanvasData] checks
    nothing, so a canvas is whatever the text of the file parses to. A
    number is kept as the text that [String(n)] gives for it, which is all
    the code can see of it. An object lists its own properties, each key
    once. *)
#[warnings="-register-all"]
Inductive Json :=
| JsonNull
| JsonBool (b : bool)
| JsonNumber (shown : string)
| JsonString (s : string)
| JsonArray (items : list Json)
| JsonObject (props : list (string * Json)).

#[global] Instance Outcome_ret : MRet Outcome := λ A, Returned.
#[global] Instance Outcome_bind : MBind Outcome :=
  λ A B k o, match o with Returned a => k a | Thrown e => Thrown e end.

Module JsValue.

Fixpoint assoc (key : string) (props : list (string * Json)) : option Json :=
  match props with
  | [] => None
  | (k, v) :: rest => if String.eqb k key then Some v else assoc key rest
  end.

(** [v.key] for one of the names the code reads ([nodes], [edges], [type],
    [text], [file], [label]): [None] is [undefined]. Reading a property of
    [null] throws; arrays, strings, numbers and booleans have no property
    of these names. *)
Definition get (v : Json) (key : string) : Outcome (option Json) :=
  match v with
  | JsonNull =>
      Thrown (TypeError ("Cannot read properties of null (reading '" +:+ key +:+ "')"))
  | JsonObject props => Returned (assoc key props)
  | _ => Returned None
  end.

(** [!!v] *)
Definition truthy (v : option Json) : bool :=
  match v with
  | None | Some JsonNull => false
  | Some (JsonBool b) => b
  | Some (JsonNumber shown) => negb (String.eqb shown "0")
  | Some (JsonString s) => negb (JsString.falsy s)
  | Some (JsonArray _) | Some (JsonObject _) => true
  end.

(** [v === s] for a string literal [s]. *)
Definition is_string (s : string) (v : option Json) : bool :=
  match v with
  | Some (JsonString s') => String.eqb s' s
  | _ => false
  end.

(** The values [for (const x of v)] runs through: the items of an array,
    the characters of a string; nothing else that [JSON.parse] returns can
    be iterated. *)
Definition iterate (what : string) (v : option Json) : Outcome (list Json) :=
  match v with
  | Some (JsonArray items) => Returned items
  | Some (JsonString s) =>
      Returned (map (fun c => JsonString (String c EmptyString)) (list_ascii_of_string s))
  | _ => Thrown (TypeError (what +:+ " is not iterable"))
  end.

(** The first error of a list of results, or all their values. *)
Fixpoint collect {A : Type} (l : list (Outcome A)) : Outcome (list A) :=
  match l with
  | [] => Returned []
  | o :: rest =>
      match o with
      | Thrown e => Thrown e
      | Returned a =>
          match collect rest with
          | Thrown e => Thrown e
          | Returned rest' => Returned (a :: rest')
          end
      end
  end.

(** [String(v)]: an array is its items joined by commas, [null] items
    counting as empty; an object is "[object Object]" unless it has a
    property [toString] of its own, which cannot be called. *)
Fixpoint to_string (v : Json) : Outcome string :=
  match v with
  | JsonNull => Returned "null"
  | JsonBool b => Returned (if b then "true" else "false")
  | JsonNumber shown => Returned shown
  | JsonString s => Returned s
  | JsonArray items =>
      match collect (map (fun x => match x with
                                   | JsonNull => Returned EmptyString
                                   | _ => to_string x
                                   end) items) with
      | Thrown e => Thrown e
      | Returned pieces => Returned (String.concat "," pieces)
      end
  | JsonObject props =>
      match assoc "toString" props with
      | Some _ => Thrown (TypeError "Cannot convert object to primitive value")
      | None => Returned "[object Object]"
      end
  end.

(** One element of [texts.join(sep)]: [undefined] and [null] are empty. *)
Definition piece (v : option Json) : Outcome string :=
  match v with
  | None | Some JsonNull => Returned EmptyString
  | Some v => to_string v
  end.

(** [texts.join(sep)] *)
Definition join (sep : string) (texts : list (option Json)) : Outcome string :=
  pieces ← collect (map piece texts);
  mret (String.concat sep pieces).

End JsValue.

(** The text-extractor plugin, when it is installed. *)
Record TextExtractor := mkExtractor {
  canFileBeExtracted : string → bool;
  extractText : TFile → Outcome (nullable string)
}.

Record MiniSearch (Ix : Type) := mkMiniSearch { toJSON : Ix }.
Arguments mkMiniSearch {Ix}.
Arguments toJSON {Ix}.

(** The collaborators of [cache-manager.ts] that are not part of it: the
    Obsidian [app], [./globals], [./tools/utils], [obsidian-text-extract],
    [JSON] and the clock. *)
Record Host := mkHost {
  getFiles : list TFile;                               (* app.vault.getFiles() *)
  cachedRead : TFile → Outcome string;                 (* app.vault.cachedRead *)
  getFileCache : TFile → option CachedMetadata;        (* app.metadataCache *)
  getTextExtractor : option TextExtractor;
  getPdfText : TFile → Outcome (nullable string);
  getImageText : TFile → Outcome (nullable string);
  isFilePlaintext : string → bool;
  isFileCanvas : string → bool;
  isFilePDF : string → bool;
  isFileImage : string → bool;
  removeDiacritics : string → string;
  JSON_parse : string → Outcome Json;
  getTagsFromMetadata : option CachedMetadata → list string;
  getAliasesFromMetadata : option CachedMetadata → list string;
  extractHeadingsFromCache : CachedMetadata → Z → list string;
  makeMD5 : string → string;
  JSON_stringify : list IndexedDocument → string;
  now_toISOString : string                             (* new Date().toISOString() *)
}.

(** ** The text of a canvas *)

(** Lines 50-56: the loop over the nodes. *)
Fixpoint push_nodes (nodes : list Json) (texts : list (option Json))
  : Outcome (list (option Json)) :=
  match nodes with
  | [] => Returned texts
  | node :: rest =>
      type ← JsValue.get node "type";
      if JsValue.is_string "text" type then
        text ← JsValue.get node "text";
        push_nodes rest (texts ++ [text])
      else if JsValue.is_string "file" type then
        file ← JsValue.get node "file";
        push_nodes rest (texts ++ [file])
      else push_nodes rest texts
  end.

(** Line 57: [edges.filter(e => !!e.label)] on an array. *)
Fixpoint filter_labelled (edges : list Json) : Outcome (list Json) :=
  match edges with
  | [] => Returned []
  | e :: rest =>
      label ← JsValue.get e "label";
      kept ← filter_labelled rest;
      mret (if JsValue.truthy label then e :: kept else kept)
  end.

(** Line 57: [canvas.edges.filter(...)]; only an array has a [filter]
    that can be called. *)
Definition edges_filter (edges : option Json) : Outcome (list Json) :=
  match edges with
  | None => Thrown (TypeError "Cannot read properties of undefined (reading 'filter')")
  | Some JsonNull => Thrown (TypeError "Cannot read properties of null (reading 'filter')")
  | Some (JsonArray es) => filter_labelled es
  | Some _ => Thrown (TypeError "canvas.edges.filter is not a function")
  end.

(** Lines 57-59: the loop over the labelled edges. *)
Fixpoint push_labels (edges : list Json) (texts : list (option Json))
  : Outcome (list (option Json)) :=
  match edges with
  | [] => Returned texts
  | edge :: rest =>
      label ← JsValue.get edge "label";
      push_labels rest (texts ++ [label])
  end.

(** Lines 48-60: the text of a parsed canvas. *)
Definition canvas_text (canvas : Json) : Outcome string :=
  nodes ← JsValue.get canvas "nodes";
  nodes ← JsValue.iterate "canvas.nodes" nodes;
  texts ← push_nodes nodes [];
  edges ← JsValue.get canvas "edges";
  edges ← edges_filter edges;
  texts ← push_labels edges texts;
  JsValue.join JsString.crlf texts.

Arguments canvas_text : simpl never.

(** ** [getAndMapIndexedDocument] *)

Section Extraction.
Context {Ix : Type} (host : Host).

Definition show_nullable (c : nullable string) : string :=
  match c with
  | JNull => "null"
  | JUndefined => "undefined"
  | JValue s => s
  end.

Definition read_file (file : TFile) : M Ix string :=
  modify (add_call (CallCachedRead (file_path file)));;
  lift (cachedRead host file).

(** Lines 34-80: the content, by kind of file. *)
Definition read_content (path : string) (file : TFile) : M Ix (nullable string) :=
  if isFilePlaintext host path then
    s ← read_file file; mret (JValue s)
  else if isFileCanvas host path then
    raw ← read_file file;
    canvas ← lift (JSON_parse host raw);
    content ← lift (canvas_text canvas);
    mret (JValue content)
  else
    match getTextExtractor host with
    | Some extractor =>
        if canFileBeExtracted extractor path then
          modify (add_call (CallExtractText (file_path file)));;
          lift (extractText extractor file)
        else
          throw (Error ("Invalid file format: " +:+ file_path file))
    | None =>
        if isFilePDF host path then
          modify (add_call (CallGetPdfText (file_path file)));;
          lift (getPdfText host file)
        else if isFileImage host (file_path file) then
          modify (add_call (CallGetImageText (file_path file)));;
          lift (getImageText host file)
        else
          throw (Error ("Invalid file format: " +:+ file_path file))
    end.

(** Lines 105-108: one turn of the loop over the comment sections. *)
Definition cut_comment (content : string) (p : Pos) : string :=
  JsString.substring content 0 (loc_offset (pos_start p) - 1)
  +:+ JsString.substring_from content (loc_offset (pos_end p)).

(** Lines 102-109. *)
Definition strip_excalidraw (metadata : CachedMetadata) (content : string) : string :=
  if truthy (frontmatter metadata ≫= (.!! "excalidraw-plugin")) then
    let comments :=
      match sections metadata with
      | Some ss => filter (fun s => sec_type s = "comment") ss
      | None => []
      end in
    fold_left cut_comment (map sec_position comments) content
  else content.

Definition getAndMapIndexedDocument (path : string) : M Ix IndexedDocument :=
  match List.find (fun f => String.eqb (file_path f) path) (getFiles host) with
  | None => throw (Error ("Invalid file path: " +:+ JsString.dquote +:+ path +:+ JsString.dquote))
  | Some file =>
      content ← read_content path file;
      content ←
        match content with
        | JValue s => mret s
        | _ =>
            console_warn ("Omnisearch: " +:+ show_nullable content +:+ " content for file "
                          +:+ file_path file)
                         None;;
            mret EmptyString
        end;
      let content := removeDiacritics host content in
      let metadata := getFileCache host file in
      let content :=
        match metadata with
        | Some md => strip_excalidraw md content
        | None => content
        end in
      mret (mkDoc (file_path file)
                  (removeDiacritics host (file_basename file))
                  content
                  (file_mtime file)
                  (getTagsFromMetadata host metadata)
                  (JsString.join EmptyString (getAliasesFromMetadata host metadata))
                  (match metadata with
                   | Some md => JsString.join " " (extractHeadingsFromCache host md 1)
                   | None => EmptyString end)
                  (match metadata with
                   | Some md => JsString.join " " (extractHeadingsFromCache host md 2)
                   | None => EmptyString end)
                  (match metadata with
                   | Some md => JsString.join " " (extractHeadingsFromCache host md 3)
                   | None => EmptyString end))
  end.

End Extraction.

(** ** [class CacheManager] *)

Section CacheManager.
Context {Ix : Type} (host : Host).

(** The world of a freshly loaded plugin on a fresh database. *)
Definition initial_world : World Ix :=
  mkWorld ∅ false (mkDb Dexie.empty [] None) [] [] [] ∅.

Definition addToLiveCache (path : string) : M Ix unit :=
  try_catch
    (doc ← getAndMapIndexedDocument host path;
     modify (set_documents (<[path := doc]>)))
    (fun e => console_warn "Omnisearch: Error while adding to live cache" (Some e)).

Definition removeFromLiveCache (path : string) : M Ix unit :=
  modify (set_documents (delete path)).

(** [this.documents.get(path)!]: the assertion is erased, a missing key
    reads as [undefined]. *)
Definition documents_get (path : string) : M Ix (nullable IndexedDocument) :=
  gets (fun w => match documents w !! path with
                 | Some d => JValue d
                 | None => JUndefined
                 end).

Definition getDocument (path : string) : M Ix (nullable IndexedDocument) :=
  has ← gets (fun w => bool_decide (is_Some (documents w !! path)));
  if has : bool then documents_get path
  else
    addToLiveCache path;;
    documents_get path.

Definition addToSearchHistory (query : string) : M Ix unit :=
  if JsString.falsy query then
    modify (set_nextQueryIsEmpty true)
  else
    modify (set_nextQueryIsEmpty false);;
    history ← searchHistory_toArray;
    let history := rev (List.filter (fun s => negb (String.eqb (row_query s) query)) history) in
    let history := mkRow None query :: history in
    let history := firstn 10 history in
    searchHistory_clear;;
    searchHistory_bulkAdd history.

Definition getSearchHistory : M Ix (list string) :=
  rows ← searchHistory_toArray;
  let data := map row_query (rev rows) in
  empty ← gets nextQueryIsEmpty;
  mret (if empty : bool then EmptyString :: data else data).

(** *** Minisearch *)

(** The comparator handed to [sort]. *)
Definition by_path (a b : IndexedDocument) : Z :=
  if JsString.lt (doc_path a) (doc_path b) then -1
  else if JsString.gt (doc_path a) (doc_path b) then 1
  else 0.

(** [Array.prototype.sort] is a stable sort. *)
Fixpoint sort_insert {A} (cmp : A → A → Z) (x : A) (l : list A) : list A :=
  match l with
  | [] => [x]
  | y :: l' => if cmp x y <=? 0 then x :: l else y :: sort_insert cmp x l'
  end.

Definition array_sort {A} (cmp : A → A → Z) (l : list A) : list A :=
  foldr (sort_insert cmp) [] l.

(** [documents] is a reference to the caller's array: [sort] reorders that
    array and returns it. *)
Definition getDocumentsChecksum (documents : positive) : M Ix string :=
  arr ← gets (fun w => arrays w !! documents);
  match arr with
  | None => throw (TypeError "documents is undefined")
  | Some l =>
      let sorted := array_sort by_path l in
      modify (set_arrays (<[documents := sorted]>));;
      mret (makeMD5 host (JSON_stringify host sorted))
  end.

Definition cache_notice : string :=
  "Omnisearch - Cache missing or invalid. Some freezes may occur while Omnisearch indexes your vault.".

Definition getMinisearchCache : M Ix (nullable (CacheRow Ix)) :=
  try_catch
    (rows ← minisearch_toArray;
     mret (match rows with
           | cachedIndex :: _ => JValue cachedIndex
           | [] => JUndefined
           end))
    (fun e =>
       Notice cache_notice;;
       console_error "Omnisearch - Error while loading Minisearch cache" None;;
       console_error EmptyString (Some e);;
       mret JNull).

(** [indexed] is a [Map], listed here in its insertion order. *)
Definition writeMinisearchCache (minisearch : MiniSearch Ix)
    (indexed : list (string * Z)) : M Ix unit :=
  let paths := map (fun kv => mkRef (fst kv) (snd kv)) indexed in
  minisearch_clear;;
  minisearch_add (mkCacheRow (now_toISOString host) paths (toJSON minisearch));;
  console_log "Omnisearch - Search cache written".

End CacheManager.


(** ** The vault event handlers of [main.ts] *)

Module Synchronizer.

(** What the vault hands to a handler: a file or a folder. *)
Inductive TAbstractFile :=
| AFile (f : TFile)
| AFolder (path name : string).

Definition abs_path (f : TAbstractFile) : string :=
  match f with AFile f => file_path f | AFolder p _ => p end.

Definition abs_name (f : TAbstractFile) : string :=
  match f with AFile f => file_name f | AFolder _ n => n end.

(** Modelled from the spec: the [./search] module, whose [addToIndex],
    [removeFromIndex] and [addNonExistingToIndex] the handlers call, is not
    among the sources. Sections 3 and 4.5 of the spec: the Live Cache and
    the Index Engine hold the live documents under their path; a ghost
    document is a synthetic document kept under a basename, not a path;
    creating extracts and inserts, and a failed extraction leaves the path
    absent; a ghost is destroyed when a real document with that identity
    reappears; deleting removes the live document from the Live Cache and
    the Index Engine. *)
Record Index := mkIndex {
  live_cache : gmap string IndexedDocument;
  engine_docs : gmap string IndexedDocument;
  engine_ghosts : gmap string IndexedDocument
}.

Definition ghost_document (name : string) : IndexedDocument :=
  mkDoc name name EmptyString 0 [] EmptyString EmptyString EmptyString EmptyString.

Section Search.
(** The Document Extractor; [None] when extraction fails. *)
Variable extract : TAbstractFile → option IndexedDocument.

Definition addToIndex (file : TAbstractFile) (st : Index) : Index :=
  match extract file with
  | Some doc =>
      mkIndex (<[abs_path file := doc]> (live_cache st))
              (<[abs_path file := doc]> (engine_docs st))
              (delete (abs_name file) (engine_ghosts st))
  | None => st
  end.

Definition removeFromIndex (path : string) (st : Index) : Index :=
  mkIndex (delete path (live_cache st)) (delete path (engine_docs st)) (engine_ghosts st).

Definition addNonExistingToIndex (name : string) (st : Index) : Index :=
  match engine_ghosts st !! name with
  | Some _ => st
  | None =>
      mkIndex (live_cache st) (engine_docs st)
              (<[name := ghost_document name]> (engine_ghosts st))
  end.

(** *** The handlers registered in [onload] (part_000, lines 35-60) *)

Definition on_create (file : TAbstractFile) (st : Index) : Index :=
  addToIndex file st.

Definition on_delete (file : TAbstractFile) (st : Index) : Index :=
  let st := removeFromIndex (abs_path file) st in
  (* Re-index the note as non-existing file *)
  addNonExistingToIndex (abs_name file) st.

Definition on_modify (file : TAbstractFile) (st : Index) : Index :=
  let st := removeFromIndex (abs_path file) st in
  addToIndex file st.

Definition on_rename (file : TAbstractFile) (oldPath : string) (st : Index) : Index :=
  match file with
  | AFile f =>
      if JsString.endsWith (file_path f) ".md" then
        let st := removeFromIndex oldPath st in
        addToIndex file st
      else st
  | AFolder _ _ => st
  end.

(** The delete handler of the older [main.ts] that follows the cache manager
    in its source file (lines 277-281): it only removes. *)
Definition on_delete_legacy (file : TAbstractFile) (st : Index) : Index :=
  removeFromIndex (abs_path file) st.

End Search.


End Synchronizer.

(** ** Notions the properties are stated with *)

Section Observations.
Context {Ix : Type}.
Implicit Types w : World Ix.

Definition history_table w : Dexie.AutoTable := searchHistory (database w).

(** The persisted queries in the order of their rows: oldest first. *)
Definition persisted w : list string := map snd (Dexie.t_rows (history_table w)).

(** The persisted queries, most recent first. *)
Definition recent w : list string := rev (persisted w).

(** The database answers its requests. *)
Definition db_up w : Prop := db_fault (database w) = None.

Definition history_ok w : Prop :=
  db_up w ∧ Dexie.wf (history_table w) ∧ Forall (fun q => q ≠ EmptyString) (persisted w).

(** The queries of a scenario, recorded one after the other. *)
Definition record_all (queries : list string) : M Ix unit :=
  foldr (fun q rest => addToSearchHistory q;; rest) (mret tt) queries.

(** The reads the host was asked for during a run started in [w]. *)
Definition calls_made {A} (w : World Ix) (run : Outcome A * World Ix) : list HostCall :=
  skipn (List.length (calls w)) (calls (snd run)).

End Observations.

(** [s] is another query than [q]: the test of the filter in
    [addToSearchHistory]. *)
Definition differs (q s : string) : bool := negb (String.eqb s q).

(** [a] comes no later than [b] in ascending path order. *)
Definition path_le (a b : IndexedDocument) : Prop :=
  String.leb (doc_path a) (doc_path b) = true.

Module Stripping.

(** The range [a, b) cut out of [content]. *)
Definition remove_range (content : string) (r : Z * Z) : string :=
  JsString.substring content 0 (fst r) +:+ JsString.substring_from content (snd r).

(** The stripping in the words of the spec: the ranges are removed from the
    highest offset down to the lowest. *)
Definition strip_descending (ranges : list (Z * Z)) (content : string) : string :=
  fold_left remove_range (array_sort (fun a b => fst b - fst a) ranges) content.

End Stripping.

Definition UnsupportedFormat (path : string) : JsError :=
  Error ("Invalid file format: " +:+ path).

(** Does the registered capability, if any, accept [path]? *)
Definition accepted (host : Host) (path : string) : bool :=
  match getTextExtractor host with
  | Some extractor => canFileBeExtracted extractor path
  | None => false
  end.

(** The dispatch for images and PDFs in the words of the spec: the
    capability when it is registered and accepts the path, else the built-in
    reader that applies, and [UnsupportedFormat] exactly when nothing
    applies. *)
Definition dispatch_as_specified {Ix : Type} (host : Host) (path : string)
    (w : World Ix) : Prop :=
  let run := getAndMapIndexedDocument host path w in
  (accepted host path = true → calls_made w run = [CallExtractText path])
  ∧ (accepted host path = false → isFilePDF host path = true →
     calls_made w run = [CallGetPdfText path])
  ∧ (accepted host path = false → isFilePDF host path = false →
     isFileImage host path = true →
     calls_made w run = [CallGetImageText path])
  ∧ (fst run = Thrown (UnsupportedFormat path)
     ↔ accepted host path = false ∧ isFilePDF host path = false
       ∧ isFileImage host path = false).

(** Extraction ends as the reader it asked did: with the reader's error, or
    with a document for [path]. *)
Definition follows_reader {Ix : Type} (path : string)
    (reader : Outcome (nullable string)) (run : Outcome IndexedDocument * World Ix) : Prop :=
  match reader with
  | Thrown e => fst run = Thrown e
  | Returned _ => ∃ doc, fst run = Returned doc ∧ doc_path doc = path
  end.

(** ** A sample vault *)

Module Sample.

Definition drawing : TFile := mkFile "drawing.md" "drawing.md" "drawing" 1667383200000.
Definition scan : TFile := mkFile "papers/scan.pdf" "scan.pdf" "scan" 1667383300000.
Definition photo : TFile := mkFile "photo.png" "photo.png" "photo" 1667383400000.

Definition drawing_text : string := "ab%%X%%cd%%Y%%ef".

(** Two comment sections, [2, 7) and [9, 14), listed in document order. *)
Definition drawing_metadata : CachedMetadata :=
  mkMeta (Some {[ "excalidraw-plugin" := FmString "parsed" ]})
         (Some [ mkSection "paragraph" (mkPos (mkLoc 0 0 0) (mkLoc 0 2 2));
                 mkSection "comment" (mkPos (mkLoc 0 2 2) (mkLoc 0 7 7));
                 mkSection "paragraph" (mkPos (mkLoc 0 7 7) (mkLoc 0 9 9));
                 mkSection "comment" (mkPos (mkLoc 0 9 9) (mkLoc 0 14 14));
                 mkSection "paragraph" (mkPos (mkLoc 0 14 14) (mkLoc 0 16 16)) ]).

Definition render (d : IndexedDocument) : string :=
  doc_path d +:+ ":" +:+ doc_content d +:+ ";".

(** A vault with the three files above; [extractor] is the text-extractor
    plugin, if any. *)
Definition host (extractor : option TextExtractor) : Host :=
  mkHost
    [drawing; scan; photo]
    (fun f => Returned (if String.eqb (file_path f) "drawing.md" then drawing_text
                        else EmptyString))
    (fun f => if String.eqb (file_path f) "drawing.md" then Some drawing_metadata else None)
    extractor
    (fun f => Returned (JValue ("pdf text of " +:+ file_path f)))
    (fun f => Returned (JValue ("image text of " +:+ file_path f)))
    (fun p => JsString.endsWith p ".md" || JsString.endsWith p ".txt")
    (fun p => JsString.endsWith p ".canvas")
    (fun p => JsString.endsWith p ".pdf")
    (fun p => JsString.endsWith p ".png" || JsString.endsWith p ".jpg")
    (fun s => s)
    (fun _ => Thrown (mkError "SyntaxError" "Unexpected token"))
    (fun _ => [])
    (fun _ => [])
    (fun _ _ => [])
    (fun s => "md5(" +:+ s +:+ ")")
    (fun docs => String.concat EmptyString (map render docs))
    "2022-11-02T10:00:00.000Z".

(** A text extractor that only takes images. *)
Definition images_only : TextExtractor :=
  mkExtractor (fun p => JsString.endsWith p ".png")
              (fun f => Returned (JValue ("extracted from " +:+ file_path f))).

Definition doc_a : IndexedDocument :=
  mkDoc "a.md" "a" "first note" 10 [] EmptyString EmptyString EmptyString EmptyString.
Definition doc_b : IndexedDocument :=
  mkDoc "b.md" "b" "second note" 20 ["#tag"] EmptyString EmptyString EmptyString EmptyString.
Definition doc_c : IndexedDocument :=
  mkDoc "notes/c.md" "c" "third note" 30 [] EmptyString EmptyString EmptyString EmptyString.

(** What extraction makes of [scan]. *)
Definition scan_doc : IndexedDocument :=
  mkDoc "papers/scan.pdf" "scan" "pdf text of papers/scan.pdf" 1667383300000 []
        EmptyString EmptyString EmptyString EmptyString.

(** The eleven queries of the search-history scenario. *)
Definition eleven_queries : list string :=
  ["a"; "b"; "a"; "c"; "d"; "e"; "f"; "g"; "h"; "i"; "j"].

(** A store that already holds two queries. *)
Definition two_query_world : World unit :=
  mkWorld ∅ false
    (mkDb (Dexie.mkTable [(1%N, "alpha"); (2%N, "beta")] 3) [] None) [] [] [] ∅.

Definition stale_row : CacheRow string :=
  mkCacheRow "2022-11-01T00:00:00.000Z" [mkRef "old.md" 1] "old index".

(** A store whose snapshot table holds an older row. *)
Definition stale_world : World string :=
  mkWorld ∅ false (mkDb Dexie.empty [stale_row] None) [] [] [] ∅.

(** A world in which callers hold two arrays with the same documents. *)
Definition two_arrays_world : World unit :=
  mkWorld ∅ false (mkDb Dexie.empty [] None) [] [] []
          {[ 1%positive := [doc_c; doc_a; doc_b]; 2%positive := [doc_b; doc_c; doc_a] ]}.

End Sample.

(** ** A canvas as [obsidian/canvas] declares it *)

Inductive CanvasNode :=
| TextNode (text : string)
| FileNode (file : string)
| OtherNode (type : string).

Record CanvasEdge := mkEdge { edge_label : option string }.
Record CanvasData := mkCanvas { nodes : list CanvasNode; edges : list CanvasEdge }.

(** The texts of the text nodes and the files of the file nodes. *)
Definition node_texts (ns : list CanvasNode) : list string :=
  flat_map (fun node =>
    match node with
    | TextNode text => [text]
    | FileNode file => [file]
    | OtherNode _ => []
    end) ns.

(** The labels of the edges that have a non-empty one. *)
Definition edge_labels (es : list CanvasEdge) : list string :=
  flat_map (fun e =>
    match edge_label e with
    | Some l => if JsString.falsy l then [] else [l]
    | None => []
    end) es.

Definition canvas_texts (canvas : CanvasData) : list string :=
  (node_texts (nodes canvas) ++ edge_labels (edges canvas))%list.

(** A string as an element of the [texts] array. *)
Definition wrap (s : string) : option Json := Some (JsonString s).

(** A parsed value that has the declared shape, whatever other properties
    its objects carry. *)
Definition is_node (j : Json) (n : CanvasNode) : Prop :=
  ∃ props, j = JsonObject props ∧
    match n with
    | TextNode text =>
        JsValue.assoc "type" props = Some (JsonString "text")
        ∧ JsValue.assoc "text" props = Some (JsonString text)
    | FileNode file =>
        JsValue.assoc "type" props = Some (JsonString "file")
        ∧ JsValue.assoc "file" props = Some (JsonString file)
    | OtherNode type =>
        JsValue.assoc "type" props = Some (JsonString type)
        ∧ type ≠ "text" ∧ type ≠ "file"
    end.

Definition is_edge (j : Json) (e : CanvasEdge) : Prop :=
  ∃ props, j = JsonObject props
         ∧ JsValue.assoc "label" props = JsonString <$> edge_label e.

Definition is_canvas (j : Json) (canvas : CanvasData) : Prop :=
  ∃ props ns es,
    j = JsonObject props
    ∧ JsValue.assoc "nodes" props = Some (JsonArray ns)
    ∧ JsValue.assoc "edges" props = Some (JsonArray es)
    ∧ Forall2 is_node ns (nodes canvas)
    ∧ Forall2 is_edge es (edges canvas).

(** ** Further notions and fixtures *)

(** Every entry of the live cache sits under the path of its document. *)
Definition cache_keys_ok {Ix : Type} (w : World Ix) : Prop :=
  ∀ p d, documents w !! p = Some d → doc_path d = p.

(** [after] is [before] with at most one more element at its end. *)
Definition grows_by_at_most_one {A : Type} (before after : list A) : Prop :=
  ∃ k, after = (before ++ k)%list ∧ (List.length k ≤ 1)%nat.

(** Everything of the world but the console and the record of host reads. *)
Definition same_state {Ix : Type} (w w' : World Ix) : Prop :=
  documents w' = documents w
  ∧ nextQueryIsEmpty w' = nextQueryIsEmpty w
  ∧ database w' = database w
  ∧ notices w' = notices w
  ∧ arrays w' = arrays w.

Module Fixtures.

(** A text extractor that takes every file and answers [null]. *)
Definition silent : TextExtractor :=
  mkExtractor (fun _ => true) (fun _ => Returned JNull).

Definition board : TFile := mkFile "board.canvas" "board.canvas" "board" 1667383500000.
Definition note : TFile := mkFile "note.md" "note.md" "note" 1667383600000.

Definition edgeless : TFile :=
  mkFile "edgeless.canvas" "edgeless.canvas" "edgeless" 1667383700000.

Definition board_canvas : CanvasData :=
  mkCanvas [TextNode "hello"; OtherNode "group"; FileNode "img.png"]
           [mkEdge (Some "link"); mkEdge None; mkEdge (Some EmptyString)].

(** What [JSON.parse] makes of the text of [board]. *)
Definition board_json : Json :=
  JsonObject
    [("nodes", JsonArray
        [JsonObject [("id", JsonString "n1"); ("type", JsonString "text");
                     ("text", JsonString "hello"); ("x", JsonNumber "0")];
         JsonObject [("id", JsonString "n2"); ("type", JsonString "group")];
         JsonObject [("id", JsonString "n3"); ("type", JsonString "file");
                     ("file", JsonString "img.png")]]);
     ("edges", JsonArray
        [JsonObject [("id", JsonString "e1"); ("fromNode", JsonString "n1");
                     ("label", JsonString "link")];
         JsonObject [("id", JsonString "e2")];
         JsonObject [("id", JsonString "e3"); ("label", JsonString EmptyString)]])].

(** What [JSON.parse] makes of the text of [edgeless]: [{"nodes":[]}]. *)
Definition edgeless_json : Json := JsonObject [("nodes", JsonArray [])].

(** A note with a comment section that is no excalidraw drawing. *)
Definition note_metadata : CachedMetadata :=
  mkMeta (Some {[ "tags" := FmString "work" ]})
         (Some [ mkSection "comment" (mkPos (mkLoc 0 2 2) (mkLoc 0 7 7)) ]).

(** A vault with two canvases and a note; [JSON.parse] knows the canvases. *)
Definition host (extractor : option TextExtractor) : Host :=
  mkHost
    [board; note; edgeless]
    (fun f => Returned (if String.eqb (file_path f) "note.md" then "ab%%X%%cd"
                        else if String.eqb (file_path f) "edgeless.canvas" then "{nodes}"
                        else "{canvas}"))
    (fun f => if String.eqb (file_path f) "note.md" then Some note_metadata else None)
    extractor
    (fun f => Returned (JValue ("pdf text of " +:+ file_path f)))
    (fun f => Returned (JValue ("image text of " +:+ file_path f)))
    (fun p => JsString.endsWith p ".md")
    (fun p => JsString.endsWith p ".canvas")
    (fun p => JsString.endsWith p ".pdf")
    (fun p => JsString.endsWith p ".png")
    (fun s => s)
    (fun raw => if String.eqb raw "{canvas}" then Returned board_json
                else if String.eqb raw "{nodes}" then Returned edgeless_json
                else Thrown (mkError "SyntaxError" "Unexpected token"))
    (fun _ => [])
    (fun _ => [])
    (fun _ _ => [])
    (fun s => "md5(" +:+ s +:+ ")")
    (fun docs => String.concat EmptyString (map Sample.render docs))
    "2022-11-03T09:00:00.000Z".

(** A store whose database rejects every request. *)
Definition broken_world : World unit :=
  mkWorld ∅ true
    (mkDb (Dexie.mkTable [(4%N, "alpha")] 5) []
          (Some (mkError "DatabaseClosedError" "Database has been closed")))
    [] [] [] ∅.

(** A live cache that holds a document the vault no longer has. *)
Definition cached_world : World unit :=
  mkWorld {[ "gone.md" := mkDoc "gone.md" "gone" "old text" 5 [] EmptyString
                            EmptyString EmptyString EmptyString ]}
          false (mkDb Dexie.empty [] None) [] [] [] ∅.

(** A store that holds twelve rows, one query twice. *)
Definition crowded_world : World unit :=
  mkWorld ∅ false
    (mkDb (Dexie.mkTable
             [(1%N, "k"); (2%N, "b"); (3%N, "c"); (4%N, "k"); (5%N, "e"); (6%N, "f");
              (7%N, "g"); (8%N, "h"); (9%N, "i"); (10%N, "j"); (11%N, "l"); (12%N, "m")] 13)
          [] None) [] [] [] ∅.

End Fixtures.

(** * Part II: properties *)

(** ** The search-history table *)

Module DexieFacts.
Import Dexie.

Lemma descending_below_weaken b b' ks :
  (b ≤ b')%N → descending_below b ks → descending_below b' ks.
Proof. destruct ks as [|k ks]; simpl; [done|]. intros ? [? ?]. split; [lia|done]. Qed.

Lemma descending_below_filter (f : N * string → bool) b rs :
  descending_below b (map fst rs) → descending_below b (map fst (List.filter f rs)).
Proof.
  revert b. induction rs as [|r rs IH]; simpl; intros b; [done|].
  intros [Hk Hrs]. destruct (f r); simpl.
  - split; [done|]. by apply IH.
  - apply IH. apply descending_below_weaken with (fst r); [lia|done].
Qed.

Lemma descending_below_firstn n b ks :
  descending_below b ks → descending_below b (firstn n ks).
Proof.
  revert b ks. induction n as [|n IH]; intros b [|k ks]; simpl; try done.
  intros [? ?]. split; [done|]. by apply IH.
Qed.

(** A key below the first key of the table goes in front. *)
Lemma insert_row_front k q rows b :
  (k < b)%N → above b rows → insert_row k q rows = Some ((k, q) :: rows).
Proof.
  destruct rows as [|[k' q'] rows]; simpl; [done|].
  intros Hk Hb. destruct (N.ltb_spec k k'); [done|lia].
Qed.

(** Re-adding rows that were read from the table, newest first, in front of
    rows with larger keys rebuilds them in ascending key order. *)
Lemma bulkAdd_descending rs b rows next :
  descending_below b (map fst rs) → above b rows → (b ≤ next)%N →
  bulkAdd (map stored rs) (mkTable rows next) = (mkTable (rev rs ++ rows) next, true).
Proof.
  revert b rows. induction rs as [|[k q] rs IH]; simpl; intros b rows; [done|].
  intros [Hk Hrs] Hrows Hnext. unfold add; simpl.
  rewrite (insert_row_front k q rows b) by done.
  replace (N.max next (N.succ k)) with next by lia.
  rewrite (IH k) by (simpl; done || lia).
  by rewrite <- app_assoc.
Qed.

(** The rows that survive the filter, the reversal and the cut to nine. *)
Lemma kept_descending (keep : N * string → bool) n rows next :
  descending_below next (rev (map fst rows)) →
  descending_below next (map fst (firstn n (rev (List.filter keep rows)))).
Proof.
  intros Hwf. rewrite <- firstn_map. apply descending_below_firstn.
  rewrite <- filter_rev. apply descending_below_filter. by rewrite map_rev.
Qed.

End DexieFacts.

Section SearchHistory.
Context {Ix : Type}.
Implicit Types w : World Ix.

Lemma falsy_false q : q ≠ EmptyString → JsString.falsy q = false.
Proof. intros. unfold JsString.falsy. by apply String.eqb_neq. Qed.

Lemma addToSearchHistory_empty w :
  addToSearchHistory EmptyString w = (Returned tt, set_nextQueryIsEmpty true w).
Proof. reflexivity. Qed.

Lemma getSearchHistory_reads w :
  db_up w →
  getSearchHistory w =
    (Returned (if nextQueryIsEmpty w then EmptyString :: recent w else recent w), w).
Proof.
  intros Hup. unfold getSearchHistory, searchHistory_toArray, mbind, M_bind, bind, db_request.
  rewrite Hup. simpl. unfold recent, persisted, history_table, Dexie.toArray.
  rewrite <- !map_rev, map_map. simpl. reflexivity.
Qed.

(** What one non-empty [addToSearchHistory] does to the store. *)
Lemma addToSearchHistory_records q w :
  q ≠ EmptyString → history_ok w →
  ∃ w', addToSearchHistory q w = (Returned tt, w')
      ∧ nextQueryIsEmpty w' = false
      ∧ history_ok w'
      ∧ recent w' = firstn 10 (q :: List.filter (differs q) (recent w))
      ∧ documents w' = documents w ∧ minisearch (database w') = minisearch (database w)
      ∧ notices w' = notices w ∧ console w' = console w.
Proof.
  intros Hq (Hup & Hwf & Hne).
  destruct w as [docs flag [[rows next] ms fault] ns cs cl ar].
  unfold db_up, history_table, persisted, recent, Dexie.wf in *; simpl in *. subst fault.
  unfold addToSearchHistory. rewrite (falsy_false q Hq).
  unfold searchHistory_toArray, searchHistory_clear, searchHistory_bulkAdd,
    mbind, M_bind, bind, db_request, modify, gets; simpl.
  unfold Dexie.toArray; simpl.
  set (keep := fun r : N * string => differs q (snd r)).
  rewrite filter_map_swap.
  change (fun a : N * string => negb (String.eqb (row_query (Dexie.stored a)) q)) with keep.
  rewrite <- map_rev, firstn_map.
  set (kept := firstn 9 (rev (List.filter keep rows))).
  unfold Dexie.add; simpl.
  rewrite (DexieFacts.bulkAdd_descending kept next [(next, q)] (N.succ next));
    [|by apply DexieFacts.kept_descending|simpl; lia|lia].
  simpl. eexists. split; [reflexivity|].
  unfold history_ok, recent, persisted, history_table, db_up, Dexie.wf,
    set_database, set_searchHistory, set_nextQueryIsEmpty; simpl.
  rewrite !map_app, !rev_app_distr, <- !map_rev, !rev_involutive. simpl.
  split_and!; try done.
  - lia.
  - by apply DexieFacts.kept_descending.
  - apply Forall_app. split; [|by repeat constructor].
    rewrite Forall_forall in Hne |- *. intros x Hx. apply Hne.
    rewrite list_elem_of_In in *. rewrite in_map_iff in *.
    destruct Hx as (r & <- & Hr). exists r. split; [done|].
    apply in_rev in Hr. unfold kept in Hr.
    apply list_elem_of_In, subseteq_take, list_elem_of_In in Hr.
    rewrite <- in_rev in Hr. by apply filter_In in Hr as [? _].
  - f_equal. unfold kept. rewrite <- firstn_map. f_equal.
    rewrite <- filter_rev. symmetry. apply filter_map_swap.
Qed.

Lemma filter_differs_id q (l : list string) : q ∉ l → List.filter (differs q) l = l.
Proof.
  induction l as [|x l IH]; simpl; [done|].
  intros Hq. apply not_elem_of_cons in Hq as [Hx Hl].
  unfold differs at 1. rewrite (proj2 (String.eqb_neq x q)) by done. simpl.
  by rewrite IH.
Qed.

(** Dropping one query from a duplicate-free list moves at most one later
    entry into its first [n] places. *)
Lemma take_filter_take q n (l : list string) :
  NoDup l →
  firstn n (List.filter (differs q) (firstn (S n) l)) = firstn n (List.filter (differs q) l).
Proof.
  revert n. induction l as [|x l IH]; intros n Hnd; [by destruct n|].
  apply NoDup_cons in Hnd as [Hx Hnd].
  destruct n as [|n]; [done|].
  change (firstn (S (S n)) (x :: l)) with (x :: firstn (S n) l).
  simpl List.filter. destruct (differs q x) eqn:Hd.
  - simpl. f_equal. by apply IH.
  - assert (x = q) as ->.
    { unfold differs in Hd. apply negb_false_iff in Hd. by apply String.eqb_eq. }
    rewrite (filter_differs_id q l Hx).
    rewrite (filter_differs_id q (firstn (S n) l)).
    + by rewrite take_take, Nat.min_id.
    + intros Hin. by apply subseteq_take in Hin.
Qed.

Lemma remove_dups_snoc (pre : list string) q :
  remove_dups (pre ++ [q])%list = (List.filter (differs q) (remove_dups pre) ++ [q])%list.
Proof.
  induction pre as [|x pre IH]; [done|].
  simpl.
  destruct (decide_rel elem_of x pre) as [Hin|Hin];
    destruct (decide_rel elem_of x (pre ++ [q])%list) as [Hin'|Hin']; simpl.
  - done.
  - destruct Hin'. apply elem_of_app. by left.
  - apply elem_of_app in Hin' as [Hin'|Hin']; [done|].
    apply list_elem_of_singleton in Hin' as ->.
    unfold differs at 1. by rewrite String.eqb_refl.
  - assert (x ≠ q) as Hne.
    { intros ->. apply Hin', elem_of_app. right. by apply list_elem_of_singleton. }
    unfold differs at 1. rewrite (proj2 (String.eqb_neq x q)) by done. simpl.
    by rewrite IH.
Qed.

(** Recording non-empty queries one after the other keeps the store equal to
    the ten most recent distinct queries, the latest first. *)
Lemma record_all_recent qs : ∀ pre w,
  history_ok w → nextQueryIsEmpty w = false →
  recent w = firstn 10 (rev (remove_dups pre)) →
  Forall (fun q => q ≠ EmptyString) qs →
  ∃ w', record_all qs w = (Returned tt, w')
      ∧ history_ok w' ∧ nextQueryIsEmpty w' = false
      ∧ recent w' = firstn 10 (rev (remove_dups (pre ++ qs))).
Proof.
  induction qs as [|q qs IH]; intros pre w Hok Hflag Hrec Hne.
  - exists w. by rewrite app_nil_r.
  - apply Forall_cons in Hne as [Hq Hne].
    destruct (addToSearchHistory_records q w Hq Hok)
      as (w1 & Hrun & Hflag1 & Hok1 & Hrec1 & _).
    destruct (IH (pre ++ [q])%list w1 Hok1 Hflag1)
      as (w' & Hrun' & Hok' & Hflag' & Hrec'); [|done|].
    + rewrite Hrec1, Hrec, remove_dups_snoc, rev_app_distr. simpl. f_equal.
      rewrite <- filter_rev.
      apply (take_filter_take q 9).
      apply NoDup_ListNoDup, NoDup_rev, NoDup_ListNoDup, NoDup_remove_dups.
    + exists w'. split_and!; try done.
      * simpl. unfold mbind, M_bind, bind. by rewrite Hrun.
      * by rewrite Hrec', <- app_assoc.
Qed.

(** X1. From a fresh store, any run of non-empty queries is read back as its
    ten most recent distinct queries, the latest first; the store never
    holds more than ten rows nor the same query twice. *)
Corollary recorded_queries_read_back (queries : list string) :
  Forall (fun q => q ≠ EmptyString) queries →
  ∃ w, record_all queries initial_world = (Returned tt, w)
     ∧ getSearchHistory w = (Returned (firstn 10 (rev (remove_dups queries))), w)
     ∧ (length (persisted w) ≤ 10)%nat
     ∧ NoDup (persisted w).
Proof.
  intros Hne.
  assert (Hok0 : history_ok (initial_world : World Ix))
    by (split_and!; [reflexivity | exact I | constructor]).
  destruct (record_all_recent queries [] initial_world Hok0 eq_refl eq_refl Hne)
    as (w & Hrun & Hok & Hflag & Hrec).
  simpl in Hrec. exists w. split_and!; try done.
  - rewrite getSearchHistory_reads by apply Hok. by rewrite Hflag, Hrec.
  - rewrite <- (length_rev (persisted w)). fold (recent w). rewrite Hrec, length_take. lia.
  - rewrite <- (rev_involutive (persisted w)). fold (recent w). rewrite Hrec.
    apply NoDup_ListNoDup, NoDup_rev, NoDup_ListNoDup.
    eapply sublist_NoDup; [|apply sublist_take].
    apply NoDup_ListNoDup, NoDup_rev, NoDup_ListNoDup, NoDup_remove_dups.
Qed.

End SearchHistory.

(** C1. On a fresh store, recording "a","b","a","c","d","e","f","g","h","i","j"
    with [addToSearchHistory] succeeds and leaves exactly 10 persisted rows;
    [getSearchHistory] reads them back most recent first; "a" occurs once, at
    the place of its second insertion (after "c", before "b"); the row that
    the first insertion of "a" had stored (key 1, the oldest) is gone. *)
Theorem search_history_eleven_queries (Ix : Type) :
  ∃ w1 w : World Ix,
    addToSearchHistory "a" initial_world = (Returned tt, w1)
    ∧ Dexie.t_rows (history_table w1) = [(1%N, "a")]
    ∧ record_all Sample.eleven_queries initial_world = (Returned tt, w)
    ∧ length (Dexie.t_rows (history_table w)) = 10%nat
    ∧ getSearchHistory w = (Returned ["j"; "i"; "h"; "g"; "f"; "e"; "d"; "c"; "a"; "b"], w)
    ∧ fst (getSearchHistory w) = Returned (rev (remove_dups Sample.eleven_queries))
    ∧ count_occ string_dec (recent w) "a" = 1%nat
    ∧ recent w !! 8%nat = Some "a"
    ∧ Forall (fun r => fst r ≠ 1%N) (Dexie.t_rows (history_table w)).
Proof.
  eexists. eexists.
  split; [vm_compute; reflexivity|].
  split; [vm_compute; reflexivity|].
  split; [vm_compute; reflexivity|].
  split; [vm_compute; reflexivity|].
  split; [vm_compute; reflexivity|].
  split; [vm_compute; reflexivity|].
  split; [vm_compute; reflexivity|].
  split; [vm_compute; reflexivity|].
  repeat constructor; discriminate.
Qed.

(** C7. Recording the empty query only raises the flag: nothing is written
    and the database is the one before. The next [getSearchHistory] returns
    the empty string followed by the persisted queries, none of which is
    empty. Recording a non-empty query afterwards lowers the flag, and
    [getSearchHistory] then returns the persisted queries alone, the new
    query first and no empty string among them. *)
Theorem empty_query_sets_flag {Ix : Type} (w : World Ix) (q : string) :
  history_ok w → q ≠ EmptyString →
  let w1 := set_nextQueryIsEmpty true w in
  addToSearchHistory EmptyString w = (Returned tt, w1)
  ∧ nextQueryIsEmpty w1 = true
  ∧ database w1 = database w
  ∧ getSearchHistory w1 = (Returned (EmptyString :: recent w), w1)
  ∧ Forall (fun s => s ≠ EmptyString) (recent w)
  ∧ ∃ w2, addToSearchHistory q w1 = (Returned tt, w2)
        ∧ nextQueryIsEmpty w2 = false
        ∧ getSearchHistory w2 = (Returned (recent w2), w2)
        ∧ head (recent w2) = Some q
        ∧ Forall (fun s => s ≠ EmptyString) (recent w2).
Proof.
  intros Hok Hq w1.
  assert (Hok1 : history_ok w1) by (destruct w; exact Hok).
  assert (Hrecent : recent w1 = recent w) by (destruct w; reflexivity).
  split_and!; try reflexivity.
  - rewrite getSearchHistory_reads by apply Hok1. simpl. by rewrite Hrecent.
  - destruct Hok as (_ & _ & Hne). unfold recent. apply Forall_rev, Hne.
  - destruct (addToSearchHistory_records q w1 Hq Hok1)
      as (w2 & Hrun & Hflag & Hok2 & Hrec & _).
    exists w2. split_and!; try done.
    + rewrite getSearchHistory_reads by apply Hok2. by rewrite Hflag.
    + by rewrite Hrec.
    + destruct Hok2 as (_ & _ & Hne). unfold recent. apply Forall_rev, Hne.
Qed.

Lemma empty_query_sets_flag_witness :
  let w := Sample.two_query_world in
  let w1 := set_nextQueryIsEmpty true w in
  addToSearchHistory EmptyString w = (Returned tt, w1)
  ∧ nextQueryIsEmpty w1 = true
  ∧ database w1 = database w
  ∧ getSearchHistory w1 = (Returned (EmptyString :: recent w), w1)
  ∧ Forall (fun s => s ≠ EmptyString) (recent w)
  ∧ ∃ w2, addToSearchHistory "note" w1 = (Returned tt, w2)
        ∧ nextQueryIsEmpty w2 = false
        ∧ getSearchHistory w2 = (Returned (recent w2), w2)
        ∧ head (recent w2) = Some "note"
        ∧ Forall (fun s => s ≠ EmptyString) (recent w2).
Proof.
  apply (empty_query_sets_flag Sample.two_query_world "note").
  - split_and!; [reflexivity | vm_compute; intuition congruence |].
    repeat constructor; discriminate.
  - discriminate.
Defined.

(** What the witness reads after the two recordings. *)
Example empty_query_then_note :
  fst ((addToSearchHistory EmptyString;; getSearchHistory) Sample.two_query_world)
    = Returned [EmptyString; "beta"; "alpha"]
  ∧ fst ((addToSearchHistory EmptyString;; addToSearchHistory "note";; getSearchHistory)
           Sample.two_query_world)
    = Returned ["note"; "beta"; "alpha"].
Proof. split; vm_compute; reflexivity. Qed.

(** ** The snapshot table *)

Section Snapshot.
Context {Ix : Type}.
Implicit Types w : World Ix.

(** A failing database request ends in [null], a notice and two console
    errors. *)
Lemma getMinisearchCache_fault w e :
  db_fault (database w) = Some e →
  ∃ w', getMinisearchCache w = (Returned JNull, w')
      ∧ notices w' = (notices w ++ [cache_notice])%list
      ∧ database w' = database w.
Proof.
  intros Hf. unfold getMinisearchCache, try_catch, minisearch_toArray,
    mbind, M_bind, bind, db_request. rewrite Hf. simpl.
  eexists. split; [reflexivity|]. by destruct w.
Qed.

(** A table that can be read yields its first row, or [undefined] when it
    has none; the world stays as it is. *)
Lemma getMinisearchCache_reads w :
  db_up w →
  getMinisearchCache w =
    (Returned (match minisearch (database w) with
               | row :: _ => JValue row
               | [] => JUndefined
               end), w).
Proof.
  intros Hup. unfold getMinisearchCache, try_catch, minisearch_toArray,
    mbind, M_bind, bind, db_request. rewrite Hup. reflexivity.
Qed.

(** No error reaches the caller. *)
Lemma getMinisearchCache_returns w :
  ∃ r w', getMinisearchCache w = (Returned r, w').
Proof.
  destruct (db_fault (database w)) as [e|] eqn:Hf.
  - destruct (getMinisearchCache_fault w e Hf) as (w' & H & _). eauto.
  - rewrite (getMinisearchCache_reads w Hf). eauto.
Qed.

(** While the database is at fault the write fails with its error and the
    table keeps its rows. *)
Lemma writeMinisearchCache_fault (host : Host) w engine indexed e :
  db_fault (database w) = Some e →
  writeMinisearchCache host engine indexed w = (Thrown e, w).
Proof.
  intros Hf. unfold writeMinisearchCache, minisearch_clear, mbind, M_bind, bind, db_request.
  by rewrite Hf.
Qed.

End Snapshot.

(** C2. With no persisted row and a database that answers,
    [getMinisearchCache] returns [undefined], not [null], and shows no
    notice: the world after the call is the world before it. *)
Theorem getMinisearchCache_missing_row (Ix : Type) :
  minisearch (database (initial_world : World Ix)) = []
  ∧ getMinisearchCache (initial_world : World Ix) = (Returned JUndefined, initial_world)
  ∧ notices (snd (getMinisearchCache (initial_world : World Ix))) = [].
Proof. split_and!; reflexivity. Qed.

(** C6. On a database that answers, [writeMinisearchCache] followed by
    [getMinisearchCache] returns the row just written: its [paths] are the
    entries of [indexed], in order, and its [data] is the serialized index.
    After the write that row is the only one in the table, whatever the
    table held before. *)
Theorem snapshot_round_trip {Ix : Type} (host : Host) (w : World Ix)
    (engine : MiniSearch Ix) (indexed : list (string * Z)) :
  db_up w →
  ∃ w1 row,
    writeMinisearchCache host engine indexed w = (Returned tt, w1)
    ∧ minisearch (database w1) = [row]
    ∧ getMinisearchCache w1 = (Returned (JValue row), w1)
    ∧ map (fun r => (ref_path r, ref_mtime r)) (row_paths row) = indexed
    ∧ row_data row = toJSON engine
    ∧ row_date row = now_toISOString host.
Proof.
  intros Hup. destruct w as [docs flag [hist ms fault] ns cs cl ar].
  unfold db_up in Hup; simpl in Hup; subst fault.
  eexists. eexists. split_and!.
  - reflexivity.
  - reflexivity.
  - reflexivity.
  - simpl. rewrite map_map. simpl. clear. induction indexed as [|[k v] l IH]; simpl; [done|].
    by rewrite IH.
  - reflexivity.
  - reflexivity.
Qed.

Lemma snapshot_round_trip_witness :
  ∃ w1 row,
    writeMinisearchCache (Sample.host None) (mkMiniSearch "new index")
      [("a.md", 5); ("b.md", 7)] Sample.stale_world = (Returned tt, w1)
    ∧ minisearch (database w1) = [row]
    ∧ getMinisearchCache w1 = (Returned (JValue row), w1)
    ∧ map (fun r => (ref_path r, ref_mtime r)) (row_paths row) = [("a.md", 5); ("b.md", 7)]
    ∧ row_data row = toJSON (mkMiniSearch "new index")
    ∧ row_date row = now_toISOString (Sample.host None).
Proof.
  apply (snapshot_round_trip (Sample.host None) Sample.stale_world (mkMiniSearch "new index")
           [("a.md", 5); ("b.md", 7)]).
  reflexivity.
Defined.

(** ** Stripping the comments of an excalidraw drawing *)

(** C3. The drawing "ab%%X%%cd%%Y%%ef" has the comment ranges [2, 7) and
    [9, 14). Removing them from the highest offset down gives "abcdef".
    [getAndMapIndexedDocument] walks the ranges in the order of the
    metadata, cuts from one character before each start and applies the
    second range to the already shortened text: the content it returns is
    "acd%%Y%%", which still holds the second comment and has lost "b" and
    "ef". *)
Theorem excalidraw_two_comments_stripped_wrongly :
  Stripping.strip_descending [(2, 7); (9, 14)] Sample.drawing_text = "abcdef"
  ∧ ∃ doc w, getAndMapIndexedDocument (Sample.host None) "drawing.md"
               (initial_world : World unit) = (Returned doc, w)
           ∧ doc_content doc = "acd%%Y%%"
           ∧ doc_content doc ≠ "abcdef".
Proof.
  split; [vm_compute; reflexivity|].
  eexists. eexists. split; [vm_compute; reflexivity|].
  split; [reflexivity|discriminate].
Qed.

(** The same loop over the ranges listed from the highest offset down still
    loses the character before each comment. *)
Example cut_comment_descending_order :
  fold_left cut_comment
    [mkPos (mkLoc 0 9 9) (mkLoc 0 14 14); mkPos (mkLoc 0 2 2) (mkLoc 0 7 7)]
    Sample.drawing_text = "acef".
Proof. vm_compute. reflexivity. Qed.

(** With a single comment the loop removes the comment and the character
    before it. *)
Example cut_comment_single :
  cut_comment Sample.drawing_text (mkPos (mkLoc 0 2 2) (mkLoc 0 7 7)) = "acd%%Y%%ef".
Proof. vm_compute. reflexivity. Qed.

(** ** Images and PDFs *)

Section BinaryDispatch.
Context {Ix : Type} (host : Host).
Implicit Types w : World Ix.

Lemma find_file_path path file :
  List.find (fun f => String.eqb (file_path f) path) (getFiles host) = Some file →
  file_path file = path.
Proof. intros H. apply find_some in H as [_ H]. by apply String.eqb_eq. Qed.

Lemma skipn_length_app {A} (l k : list A) : skipn (List.length l) (l ++ k) = k.
Proof. induction l; simpl; auto. Qed.

(** A run that asks one reader and goes on with its answer. *)
Lemma asks_one_reader path file w (call : HostCall) (reader : Outcome (nullable string)) :
  List.find (fun f => String.eqb (file_path f) path) (getFiles host) = Some file →
  read_content (Ix:=Ix) host path file = (modify (add_call call);; lift reader) →
  let run := getAndMapIndexedDocument host path w in
  calls_made w run = [call] ∧ follows_reader path reader run.
Proof.
  intros Hfind Hread run. subst run.
  pose proof (find_file_path path file Hfind) as Hpath.
  unfold getAndMapIndexedDocument. rewrite Hfind, Hread.
  destruct w as [docs flag db ns cs cl ar].
  unfold calls_made, follows_reader, mbind, M_bind, bind, lift, modify; simpl.
  destruct reader as [[| |s]|e]; simpl; rewrite skipn_length_app; eauto.
Qed.

End BinaryDispatch.

(** C5, as the spec words it, fails on a PDF that the registered capability
    does not accept: the built-in PDF reader applies but is never asked. *)
Lemma dispatch_as_specified_fails :
  ¬ dispatch_as_specified (Sample.host (Some Sample.images_only)) "papers/scan.pdf"
      (initial_world : World unit).
Proof.
  intros (_ & Hpdf & _).
  specialize (Hpdf eq_refl eq_refl). vm_compute in Hpdf. discriminate.
Qed.

(** C5, amended. For an image or PDF path of the vault: when a capability
    is registered and accepts the path, it alone is asked; when a capability
    is registered and does not accept the path, no reader is asked and
    extraction fails with [UnsupportedFormat]; when no capability is
    registered, the built-in PDF reader is asked for a PDF and the built-in
    image reader otherwise. Extraction ends as the reader it asked did. It
    fails with [UnsupportedFormat] without asking a reader exactly when a
    capability is registered and does not accept the path. *)
Theorem binary_dispatch {Ix : Type} (host : Host) (path : string) (file : TFile)
    (w : World Ix) :
  List.find (fun f => String.eqb (file_path f) path) (getFiles host) = Some file →
  isFilePlaintext host path = false →
  isFileCanvas host path = false →
  isFilePDF host path || isFileImage host path = true →
  let run := getAndMapIndexedDocument host path w in
  (∀ extractor, getTextExtractor host = Some extractor →
     canFileBeExtracted extractor path = true →
     calls_made w run = [CallExtractText path]
     ∧ follows_reader path (extractText extractor file) run)
  ∧ (∀ extractor, getTextExtractor host = Some extractor →
     canFileBeExtracted extractor path = false →
     run = (Thrown (UnsupportedFormat path), w))
  ∧ (getTextExtractor host = None → isFilePDF host path = true →
     calls_made w run = [CallGetPdfText path]
     ∧ follows_reader path (getPdfText host file) run)
  ∧ (getTextExtractor host = None → isFilePDF host path = false →
     calls_made w run = [CallGetImageText path]
     ∧ follows_reader path (getImageText host file) run)
  ∧ (fst run = Thrown (UnsupportedFormat path) ∧ calls_made w run = []
     ↔ ∃ extractor, getTextExtractor host = Some extractor
                  ∧ canFileBeExtracted extractor path = false).
Proof.
  intros Hfind Hplain Hcanvas Hkind run.
  pose proof (find_file_path host path file Hfind) as Hpath.
  assert (Hdelegate : ∀ extractor, getTextExtractor host = Some extractor →
            canFileBeExtracted extractor path = true →
            calls_made w run = [CallExtractText path]
            ∧ follows_reader path (extractText extractor file) run).
  { intros ex Hex Hacc. apply (asks_one_reader host path file w); [done|].
    unfold read_content. by rewrite Hplain, Hcanvas, Hex, Hacc, Hpath. }
  assert (Hreject : ∀ extractor, getTextExtractor host = Some extractor →
            canFileBeExtracted extractor path = false →
            run = (Thrown (UnsupportedFormat path), w)).
  { intros ex Hex Hacc. subst run. unfold getAndMapIndexedDocument. rewrite Hfind.
    unfold read_content. by rewrite Hplain, Hcanvas, Hex, Hacc, Hpath. }
  assert (Hpdf : getTextExtractor host = None → isFilePDF host path = true →
            calls_made w run = [CallGetPdfText path]
            ∧ follows_reader path (getPdfText host file) run).
  { intros Hex Hp. apply (asks_one_reader host path file w); [done|].
    unfold read_content. by rewrite Hplain, Hcanvas, Hex, Hp, Hpath. }
  assert (Himage : getTextExtractor host = None → isFilePDF host path = false →
            calls_made w run = [CallGetImageText path]
            ∧ follows_reader path (getImageText host file) run).
  { intros Hex Hp. apply (asks_one_reader host path file w); [done|].
    rewrite Hp in Hkind. simpl in Hkind.
    unfold read_content. by rewrite Hplain, Hcanvas, Hex, Hp, Hpath, Hkind. }
  split_and!; try done. split.
  - intros [_ Hno].
    destruct (getTextExtractor host) as [ex|] eqn:Hex.
    + destruct (canFileBeExtracted ex path) eqn:Hacc; [|eauto].
      destruct (Hdelegate ex eq_refl Hacc) as [Hcalls _]. congruence.
    + destruct (isFilePDF host path) eqn:Hp.
      * destruct (Hpdf eq_refl eq_refl) as [Hcalls _]. congruence.
      * destruct (Himage eq_refl eq_refl) as [Hcalls _]. congruence.
  - intros (ex & Hex & Hacc). rewrite (Hreject ex Hex Hacc).
    split; [done|]. unfold calls_made. simpl. apply skipn_all.
Qed.

Lemma binary_dispatch_witness :
  let host := Sample.host (Some Sample.images_only) in
  let path := "papers/scan.pdf" in
  let w : World unit := initial_world in
  let run := getAndMapIndexedDocument host path w in
  (∀ extractor, getTextExtractor host = Some extractor →
     canFileBeExtracted extractor path = true →
     calls_made w run = [CallExtractText path]
     ∧ follows_reader path (extractText extractor Sample.scan) run)
  ∧ (∀ extractor, getTextExtractor host = Some extractor →
     canFileBeExtracted extractor path = false →
     run = (Thrown (UnsupportedFormat path), w))
  ∧ (getTextExtractor host = None → isFilePDF host path = true →
     calls_made w run = [CallGetPdfText path]
     ∧ follows_reader path (getPdfText host Sample.scan) run)
  ∧ (getTextExtractor host = None → isFilePDF host path = false →
     calls_made w run = [CallGetImageText path]
     ∧ follows_reader path (getImageText host Sample.scan) run)
  ∧ (fst run = Thrown (UnsupportedFormat path) ∧ calls_made w run = []
     ↔ ∃ extractor, getTextExtractor host = Some extractor
                  ∧ canFileBeExtracted extractor path = false).
Proof.
  apply (binary_dispatch (Sample.host (Some Sample.images_only)) "papers/scan.pdf"
           Sample.scan (initial_world : World unit)); reflexivity.
Defined.

(** The three cases on the sample vault. *)
Example dispatch_on_the_sample :
  getAndMapIndexedDocument (Sample.host (Some Sample.images_only)) "papers/scan.pdf"
    (initial_world : World unit)
  = (Thrown (UnsupportedFormat "papers/scan.pdf"), initial_world)
  ∧ calls (snd (getAndMapIndexedDocument (Sample.host (Some Sample.images_only)) "photo.png"
                  (initial_world : World unit))) = [CallExtractText "photo.png"]
  ∧ calls (snd (getAndMapIndexedDocument (Sample.host None) "papers/scan.pdf"
                  (initial_world : World unit))) = [CallGetPdfText "papers/scan.pdf"]
  ∧ calls (snd (getAndMapIndexedDocument (Sample.host None) "photo.png"
                  (initial_world : World unit))) = [CallGetImageText "photo.png"].
Proof. split_and!; vm_compute; reflexivity. Qed.

(** ** The live cache *)

Section LiveCache.
Context {Ix : Type} (host : Host).
Implicit Types w : World Ix.

Ltac run_monad :=
  unfold mbind, M_bind, mret, M_ret, bind, ret, lift, modify, throw, gets,
    console_warn; simpl.

Ltac split_cases :=
  repeat match goal with
         | |- context [match ?x with _ => _ end] => destruct x eqn:?; simpl
         | |- context [if ?x then _ else _] => destruct x eqn:?; simpl
         end.

(** Extraction reads the vault and may write to the console; it leaves
    the live cache as it is. *)
Lemma read_content_documents path file w :
  documents (snd (read_content (Ix:=Ix) host path file w)) = documents w.
Proof.
  destruct w as [docs flag db ns cs cl ar].
  unfold read_content, read_file. run_monad.
  split_cases; run_monad; split_cases; reflexivity.
Qed.

Lemma getAndMapIndexedDocument_documents path w :
  documents (snd (getAndMapIndexedDocument host path w)) = documents w.
Proof.
  unfold getAndMapIndexedDocument.
  destruct (List.find _ _) as [file|]; [|reflexivity].
  unfold mbind, M_bind, bind.
  pose proof (read_content_documents path file w) as Hread.
  destruct (read_content host path file w) as [[[| |s]|e] w1]; simpl in *;
    rewrite <- Hread; destruct w1; reflexivity.
Qed.

(** A path that names no file of the vault cannot be extracted. *)
Lemma getAndMapIndexedDocument_no_file path w :
  Forall (fun f => file_path f ≠ path) (getFiles host) →
  getAndMapIndexedDocument host path w
  = (Thrown (Error ("Invalid file path: " +:+ JsString.dquote +:+ path +:+ JsString.dquote)), w).
Proof.
  intros Hno. unfold getAndMapIndexedDocument.
  destruct (List.find _ _) as [file|] eqn:Hfind; [|reflexivity].
  apply find_some in Hfind as [Hin Heq]. apply String.eqb_eq in Heq.
  rewrite Forall_forall in Hno. by destruct (Hno file (proj2 (list_elem_of_In _ _) Hin)).
Qed.

End LiveCache.

(** C9. When [path] is not in the live cache and its extraction throws,
    [getDocument] returns [undefined] to its caller, throws nothing and
    leaves the live cache as it was, so still without an entry for [path];
    the error ends up in a console warning. *)
Theorem getDocument_undefined_on_failure {Ix : Type} (host : Host) (path : string)
    (w w1 : World Ix) (e : JsError) :
  documents w !! path = None →
  getAndMapIndexedDocument host path w = (Thrown e, w1) →
  ∃ w', getDocument host path w = (Returned JUndefined, w')
      ∧ documents w' = documents w
      ∧ documents w' !! path = None
      ∧ console w' = (console w1 ++ [mkLog LevelWarn "Omnisearch: Error while adding to live cache" (Some e)])%list.
Proof.
  intros Hmiss Hthrow.
  pose proof (getAndMapIndexedDocument_documents host path w) as Hdocs.
  rewrite Hthrow in Hdocs. simpl in Hdocs.
  unfold getDocument, addToLiveCache, documents_get, try_catch,
    mbind, M_bind, bind, gets, console_warn, modify.
  rewrite Hmiss. rewrite bool_decide_eq_false_2 by (by intros [? ?]).
  rewrite Hthrow. destruct w1 as [docs1 ? ? ? ? ? ?]. simpl in *. subst docs1.
  rewrite Hmiss. eexists. split; [reflexivity|]. simpl. done.
Qed.

Lemma getDocument_undefined_on_failure_witness :
  ∃ w', getDocument (Sample.host None) "missing.md" (initial_world : World unit)
        = (Returned JUndefined, w')
      ∧ documents w' = documents (initial_world : World unit)
      ∧ documents w' !! "missing.md" = None
      ∧ console w' =
          (console (initial_world : World unit)
           ++ [mkLog LevelWarn "Omnisearch: Error while adding to live cache"
                 (Some (Error ("Invalid file path: " +:+ JsString.dquote +:+ "missing.md"
                               +:+ JsString.dquote)))])%list.
Proof.
  apply (getDocument_undefined_on_failure (Sample.host None) "missing.md"
           initial_world initial_world).
  - reflexivity.
  - vm_compute. reflexivity.
Defined.

(** ** Sorting by path *)

Module StringOrder.

Lemma ascii_compare_refl x : Ascii.compare x x = Eq.
Proof. unfold Ascii.compare. apply N.compare_refl. Qed.

Lemma ascii_compare_lt_trans x y z :
  Ascii.compare x y = Lt → Ascii.compare y z = Lt → Ascii.compare x z = Lt.
Proof. unfold Ascii.compare. rewrite !N.compare_lt_iff. lia. Qed.

Lemma leb_trans a b c :
  String.leb a b = true → String.leb b c = true → String.leb a c = true.
Proof.
  unfold String.leb. revert b c.
  induction a as [|x a IH]; intros [|y b] [|z c]; simpl; try done.
  destruct (Ascii.compare x y) eqn:Hxy; try done;
    destruct (Ascii.compare y z) eqn:Hyz; try done.
  - apply Ascii.compare_eq_iff in Hxy, Hyz. subst.
    rewrite ascii_compare_refl. apply IH.
  - apply Ascii.compare_eq_iff in Hxy. subst. by rewrite Hyz.
  - apply Ascii.compare_eq_iff in Hyz. subst. by rewrite Hxy.
  - by rewrite (ascii_compare_lt_trans x y z).
Qed.

End StringOrder.

Section Sorting.

Lemma by_path_le a b : (by_path a b <=? 0) = true ↔ path_le a b.
Proof.
  unfold by_path, path_le, JsString.lt, JsString.gt, String.leb, String.ltb.
  rewrite (String.compare_antisym (doc_path b) (doc_path a)).
  destruct (String.compare (doc_path a) (doc_path b)); simpl; split; done.
Qed.

#[local] Instance path_le_trans : Transitive path_le.
Proof. intros a b c. apply StringOrder.leb_trans. Qed.

Lemma path_le_total a b : path_le a b ∨ path_le b a.
Proof. apply String.leb_total. Qed.

Lemma sort_insert_perm x l : sort_insert by_path x l ≡ₚ x :: l.
Proof.
  induction l as [|y l IH]; simpl; [done|].
  destruct (by_path x y <=? 0); [done|].
  rewrite IH. apply perm_swap.
Qed.

Lemma array_sort_perm l : array_sort by_path l ≡ₚ l.
Proof.
  induction l as [|x l IH]; simpl; [done|].
  rewrite sort_insert_perm. by rewrite IH.
Qed.

Lemma sort_insert_sorted x l :
  Sorted path_le l → Sorted path_le (sort_insert by_path x l).
Proof.
  induction 1 as [|y l Hl IH Hhd]; simpl; [by repeat constructor|].
  destruct (by_path x y <=? 0) eqn:Hcmp.
  - apply by_path_le in Hcmp. by repeat constructor.
  - assert (path_le y x) as Hyx.
    { destruct (path_le_total x y) as [Hxy|]; [|done].
      apply by_path_le in Hxy. congruence. }
    constructor; [done|].
    destruct Hhd as [|z l' Hyz]; simpl; [by constructor|].
    destruct (by_path x z <=? 0); by constructor.
Qed.

Lemma array_sort_sorted l : StronglySorted path_le (array_sort by_path l).
Proof.
  apply Sorted_StronglySorted; [apply path_le_trans|].
  induction l as [|x l IH]; simpl; [constructor|].
  by apply sort_insert_sorted.
Qed.

Lemma distinct_paths_inj (l : list IndexedDocument) a b :
  NoDup (map doc_path l) → a ∈ l → b ∈ l → doc_path a = doc_path b → a = b.
Proof.
  induction l as [|x l IH]; simpl; intros Hnd Ha Hb Heq.
  - by apply elem_of_nil in Ha.
  - apply NoDup_cons in Hnd as [Hx Hnd].
    apply elem_of_cons in Ha as [->|Ha], Hb as [->|Hb]; try done.
    + destruct Hx. rewrite Heq. by apply list_elem_of_fmap_2.
    + destruct Hx. rewrite <- Heq. by apply list_elem_of_fmap_2.
    + by apply IH.
Qed.

(** Two arrays with the same documents, no two of which share a path, sort
    to the same array. *)
Lemma array_sort_permutation l1 l2 :
  l1 ≡ₚ l2 → NoDup (map doc_path l1) →
  array_sort by_path l1 = array_sort by_path l2.
Proof.
  intros Hperm Hnd.
  apply (StronglySorted_unique_strong path_le); try apply array_sort_sorted.
  - intros a b Ha Hb Hab Hba.
    rewrite array_sort_perm in Ha, Hb. rewrite <- Hperm in Hb.
    apply (distinct_paths_inj l1); try done.
    by apply String.leb_antisym.
  - by rewrite !array_sort_perm.
Qed.

End Sorting.

Section Checksum.
Context {Ix : Type} (host : Host).
Implicit Types w : World Ix.

(** One call on the array that [r] refers to. *)
Lemma getDocumentsChecksum_runs w r l :
  arrays w !! r = Some l →
  getDocumentsChecksum host r w
  = (Returned (makeMD5 host (JSON_stringify host (array_sort by_path l))),
     set_arrays (<[r := array_sort by_path l]>) w).
Proof.
  intros Hl. unfold getDocumentsChecksum, mbind, M_bind, bind, gets. by rewrite Hl.
Qed.

End Checksum.

(** C8. Two arrays that hold the same documents in different orders, no two
    documents sharing a path, get the same checksum from
    [getDocumentsChecksum]. *)
Theorem checksum_independent_of_order {Ix : Type} (host : Host) (w1 w2 : World Ix)
    (r1 r2 : positive) (l1 l2 : list IndexedDocument) :
  arrays w1 !! r1 = Some l1 →
  arrays w2 !! r2 = Some l2 →
  l1 ≡ₚ l2 →
  NoDup (map doc_path l1) →
  ∃ checksum w1' w2',
    getDocumentsChecksum host r1 w1 = (Returned checksum, w1')
    ∧ getDocumentsChecksum host r2 w2 = (Returned checksum, w2').
Proof.
  intros H1 H2 Hperm Hnd.
  rewrite (getDocumentsChecksum_runs host w1 r1 l1 H1).
  rewrite (getDocumentsChecksum_runs host w2 r2 l2 H2).
  rewrite (array_sort_permutation l1 l2 Hperm Hnd). eauto.
Qed.

Lemma checksum_independent_of_order_witness :
  ∃ checksum w1' w2',
    getDocumentsChecksum (Sample.host None) 1%positive Sample.two_arrays_world
      = (Returned checksum, w1')
    ∧ getDocumentsChecksum (Sample.host None) 2%positive Sample.two_arrays_world
      = (Returned checksum, w2').
Proof.
  apply (checksum_independent_of_order (Sample.host None)
           Sample.two_arrays_world Sample.two_arrays_world 1%positive 2%positive
           [Sample.doc_c; Sample.doc_a; Sample.doc_b]
           [Sample.doc_b; Sample.doc_c; Sample.doc_a]).
  - reflexivity.
  - reflexivity.
  - apply (Permutation_app_comm [Sample.doc_c; Sample.doc_a] [Sample.doc_b]).
  - apply (bool_decide_unpack _). vm_compute. exact I.
Defined.

(** C10. [getDocumentsChecksum] writes to the array it is given: after the
    call the caller's array holds the same documents in ascending path
    order, the other arrays are as before, and an array that was not in
    that order has been changed. *)
Theorem getDocumentsChecksum_sorts_in_place {Ix : Type} (host : Host) (w : World Ix)
    (r : positive) (l : list IndexedDocument) :
  arrays w !! r = Some l →
  ∃ checksum w' l',
    getDocumentsChecksum host r w = (Returned checksum, w')
    ∧ arrays w' !! r = Some l'
    ∧ l' = array_sort by_path l
    ∧ StronglySorted path_le l'
    ∧ l' ≡ₚ l
    ∧ (∀ r', r' ≠ r → arrays w' !! r' = arrays w !! r')
    ∧ (¬ StronglySorted path_le l → arrays w' !! r ≠ arrays w !! r).
Proof.
  intros Hl. rewrite (getDocumentsChecksum_runs host w r l Hl).
  eexists. eexists. exists (array_sort by_path l). split; [reflexivity|].
  destruct w as [docs flag db ns cs cl ar]. simpl in *.
  split_and!.
  - apply lookup_insert_eq.
  - reflexivity.
  - apply array_sort_sorted.
  - apply array_sort_perm.
  - intros r' Hr'. by apply lookup_insert_ne.
  - intros Hunsorted. rewrite lookup_insert_eq, Hl. intros [= Heq].
    apply Hunsorted. rewrite <- Heq. apply array_sort_sorted.
Qed.

Lemma getDocumentsChecksum_sorts_in_place_witness :
  ¬ StronglySorted path_le [Sample.doc_c; Sample.doc_a; Sample.doc_b]
  ∧ ∃ checksum w' l',
    getDocumentsChecksum (Sample.host None) 1%positive Sample.two_arrays_world
      = (Returned checksum, w')
    ∧ arrays w' !! 1%positive = Some l'
    ∧ l' = array_sort by_path [Sample.doc_c; Sample.doc_a; Sample.doc_b]
    ∧ StronglySorted path_le l'
    ∧ l' ≡ₚ [Sample.doc_c; Sample.doc_a; Sample.doc_b]
    ∧ (∀ r', r' ≠ 1%positive → arrays w' !! r' = arrays Sample.two_arrays_world !! r')
    ∧ (¬ StronglySorted path_le [Sample.doc_c; Sample.doc_a; Sample.doc_b]
       → arrays w' !! 1%positive ≠ arrays Sample.two_arrays_world !! 1%positive).
Proof.
  split.
  - intros Hs. apply StronglySorted_inv in Hs as [_ Hs].
    apply Forall_inv in Hs. vm_compute in Hs. discriminate.
  - apply (getDocumentsChecksum_sorts_in_place (Sample.host None) Sample.two_arrays_world
             1%positive [Sample.doc_c; Sample.doc_a; Sample.doc_b]).
    reflexivity.
Defined.

(** The array of the sample after the call. *)
Example getDocumentsChecksum_reorders :
  arrays (snd (getDocumentsChecksum (Sample.host None) 1%positive Sample.two_arrays_world))
    !! 1%positive = Some [Sample.doc_a; Sample.doc_b; Sample.doc_c].
Proof. vm_compute. reflexivity. Qed.

(** ** The vault event handlers *)

Module SynchronizerFacts.
Import Synchronizer.



(** A file whose extraction succeeds is live after the create handler. *)
Lemma on_create_indexes extract file st doc :
  extract file = Some doc →
  engine_docs (on_create extract file st) !! abs_path file = Some doc
  ∧ live_cache (on_create extract file st) !! abs_path file = Some doc.
Proof.
  intros Hdoc. unfold on_create, addToIndex. rewrite Hdoc. simpl.
  split; apply lookup_insert_eq.
Qed.

(** The older handler adds no ghost. *)
Lemma on_delete_legacy_ghosts file st :
  engine_ghosts (on_delete_legacy file st) = engine_ghosts st.
Proof. reflexivity. Qed.

End SynchronizerFacts.



(** The two handlers on the sample file: the ghost sits under "scan.pdf",
    nothing sits under "scan". *)
Example create_then_delete_on_the_sample :
  let file := Synchronizer.AFile Sample.scan in
  let created := Synchronizer.on_create (fun _ => Some Sample.scan_doc) file
                   (Synchronizer.mkIndex ∅ ∅ ∅) in
  Synchronizer.engine_docs created !! "papers/scan.pdf" = Some Sample.scan_doc
  ∧ Synchronizer.engine_ghosts (Synchronizer.on_delete file created) !! "scan.pdf"
    = Some (Synchronizer.ghost_document "scan.pdf")
  ∧ Synchronizer.engine_ghosts (Synchronizer.on_delete file created) !! "scan" = None
  ∧ Synchronizer.engine_ghosts (Synchronizer.on_delete_legacy file created) = ∅.
Proof. split_and!; vm_compute; reflexivity. Qed.

(** * Part III: further properties of the cache manager *)

(** ** Search history *)

Section HistoryMore.
Context {Ix : Type}.
Implicit Types w : World Ix.

Lemma count_occ_filter_differs q (l : list string) :
  count_occ string_dec (List.filter (differs q) l) q = 0%nat.
Proof.
  apply count_occ_not_In. intros Hin. apply filter_In in Hin as [_ Hd].
  unfold differs in Hd. by rewrite String.eqb_refl in Hd.
Qed.

Lemma count_occ_firstn_zero q n (l : list string) :
  count_occ string_dec l q = 0%nat → count_occ string_dec (firstn n l) q = 0%nat.
Proof.
  rewrite <- !count_occ_not_In. intros Hl Hin. apply Hl.
  apply list_elem_of_In. apply list_elem_of_In in Hin. by apply subseteq_take in Hin.
Qed.

End HistoryMore.

(** X2. On any consistent store, recording a non-empty query puts it first,
    keeps it once, keeps at most ten queries and brings in no query that
    was not there, even when the store held more than ten rows or the same
    query several times before. *)
Theorem addToSearchHistory_caps_and_dedups {Ix : Type} (w : World Ix) (q : string) :
  q ≠ EmptyString → history_ok w →
  ∃ w', addToSearchHistory q w = (Returned tt, w')
      ∧ history_ok w'
      ∧ head (recent w') = Some q
      ∧ count_occ string_dec (recent w') q = 1%nat
      ∧ (List.length (recent w') ≤ 10)%nat
      ∧ (∀ s, s ∈ recent w' → s = q ∨ s ∈ recent w).
Proof.
  intros Hq Hok.
  destruct (addToSearchHistory_records q w Hq Hok) as (w' & Hrun & _ & Hok' & Hrec & _).
  exists w'. rewrite Hrec. split_and!; try done.
  - change (firstn 10 (q :: ?l)) with (q :: firstn 9 l). simpl.
    destruct (string_dec q q) as [_|Hne]; [|done]. f_equal.
    apply count_occ_firstn_zero, count_occ_filter_differs.
  - rewrite length_take. lia.
  - intros s Hs. apply subseteq_take in Hs. apply elem_of_cons in Hs as [->|Hs]; [by left|].
    right. apply list_elem_of_In. apply list_elem_of_In in Hs. by apply filter_In in Hs as [? _].
Qed.

Lemma addToSearchHistory_caps_and_dedups_witness :
  ∃ w', addToSearchHistory "k" Fixtures.crowded_world = (Returned tt, w')
      ∧ history_ok w'
      ∧ head (recent w') = Some "k"
      ∧ count_occ string_dec (recent w') "k" = 1%nat
      ∧ (List.length (recent w') ≤ 10)%nat
      ∧ (∀ s, s ∈ recent w' → s = "k" ∨ s ∈ recent Fixtures.crowded_world).
Proof.
  apply (addToSearchHistory_caps_and_dedups Fixtures.crowded_world "k").
  - discriminate.
  - split_and!; [reflexivity | vm_compute; intuition congruence |].
    repeat constructor; discriminate.
Defined.

(** X3. Recording the query that is already the most recent one changes
    nothing that [getSearchHistory] reads: the second recording returns and
    the history is the one after the first. *)
Theorem addToSearchHistory_repeat {Ix : Type} (w : World Ix) (q : string) :
  q ≠ EmptyString → history_ok w →
  ∃ w1 w2, addToSearchHistory q w = (Returned tt, w1)
         ∧ addToSearchHistory q w1 = (Returned tt, w2)
         ∧ recent w2 = recent w1
         ∧ fst (getSearchHistory w2) = fst (getSearchHistory w1).
Proof.
  intros Hq Hok.
  destruct (addToSearchHistory_records q w Hq Hok) as (w1 & Hrun1 & Hflag1 & Hok1 & Hrec1 & _).
  destruct (addToSearchHistory_records q w1 Hq Hok1) as (w2 & Hrun2 & Hflag2 & Hok2 & Hrec2 & _).
  assert (Hsame : recent w2 = recent w1).
  { rewrite Hrec2, Hrec1.
    change (firstn 10 (q :: ?l)) with (q :: firstn 9 l).
    simpl List.filter. unfold differs at 1. rewrite String.eqb_refl. simpl. f_equal.
    set (rest := List.filter (differs q) (recent w)).
    rewrite (filter_differs_id q (firstn 9 rest)).
    - by rewrite take_take, Nat.min_id.
    - intros Hin. apply subseteq_take in Hin. apply list_elem_of_In in Hin.
      apply filter_In in Hin as [_ Hd]. unfold differs in Hd.
      by rewrite String.eqb_refl in Hd. }
  exists w1, w2. split_and!; try done.
  rewrite !getSearchHistory_reads by (apply Hok1 || apply Hok2).
  by rewrite Hflag1, Hflag2, Hsame.
Qed.

Lemma addToSearchHistory_repeat_witness :
  ∃ w1 w2, addToSearchHistory "beta" Sample.two_query_world = (Returned tt, w1)
         ∧ addToSearchHistory "beta" w1 = (Returned tt, w2)
         ∧ recent w2 = recent w1
         ∧ fst (getSearchHistory w2) = fst (getSearchHistory w1).
Proof.
  apply (addToSearchHistory_repeat Sample.two_query_world "beta").
  - discriminate.
  - split_and!; [reflexivity | vm_compute; intuition congruence |].
    repeat constructor; discriminate.
Defined.

(** X4. While the database rejects its requests, recording a non-empty query
    fails with the database's error after the flag has already been lowered,
    and no row is touched; reading the history fails with the same error
    and changes nothing; recording the empty query still succeeds, since it
    asks nothing of the database. *)
Theorem search_history_when_database_fails {Ix : Type} (w : World Ix) (q : string)
    (e : JsError) :
  db_fault (database w) = Some e → q ≠ EmptyString →
  addToSearchHistory q w = (Thrown e, set_nextQueryIsEmpty false w)
  ∧ database (set_nextQueryIsEmpty false w) = database w
  ∧ getSearchHistory w = (Thrown e, w)
  ∧ addToSearchHistory EmptyString w = (Returned tt, set_nextQueryIsEmpty true w).
Proof.
  intros Hf Hq. split_and!; try reflexivity.
  - unfold addToSearchHistory. rewrite (falsy_false q Hq).
    unfold searchHistory_toArray, mbind, M_bind, bind, db_request, modify; simpl.
    by rewrite Hf.
  - unfold getSearchHistory, searchHistory_toArray, mbind, M_bind, bind, db_request.
    by rewrite Hf.
Qed.

Lemma search_history_when_database_fails_witness :
  let w := Fixtures.broken_world in
  let e := mkError "DatabaseClosedError" "Database has been closed" in
  addToSearchHistory "beta" w = (Thrown e, set_nextQueryIsEmpty false w)
  ∧ database (set_nextQueryIsEmpty false w) = database w
  ∧ getSearchHistory w = (Thrown e, w)
  ∧ addToSearchHistory EmptyString w = (Returned tt, set_nextQueryIsEmpty true w).
Proof.
  apply (search_history_when_database_fails Fixtures.broken_world "beta").
  - reflexivity.
  - discriminate.
Defined.

(** X5. [getSearchHistory] only reads: it leaves the world as it is, and in
    particular does not lower the flag, so a second reading gives what the
    first one gave. *)
Theorem getSearchHistory_only_reads {Ix : Type} (w : World Ix) :
  ∃ r, getSearchHistory w = (r, w)
     ∧ (getSearchHistory;; getSearchHistory) w = (r, w).
Proof.
  unfold mbind, M_bind, bind.
  destruct (db_fault (database w)) as [e|] eqn:Hf.
  - exists (Thrown e).
    assert (H : getSearchHistory w = (Thrown e, w)).
    { unfold getSearchHistory, searchHistory_toArray, mbind, M_bind, bind, db_request.
      by rewrite Hf. }
    by rewrite H.
  - rewrite (getSearchHistory_reads w Hf). eexists. split; [reflexivity|].
    by rewrite (getSearchHistory_reads w Hf).
Qed.

Lemma recorded_queries_read_back_witness :
  ∃ w : World unit,
    record_all ["n1"; "n2"; "n3"; "n1"; "n4"; "n5"; "n6"; "n7"; "n8"; "n9"; "n10"; "n11"; "n12"]
      initial_world = (Returned tt, w)
    ∧ getSearchHistory w =
        (Returned (firstn 10 (rev (remove_dups
           ["n1"; "n2"; "n3"; "n1"; "n4"; "n5"; "n6"; "n7"; "n8"; "n9"; "n10"; "n11"; "n12"]))), w)
    ∧ (List.length (persisted w) ≤ 10)%nat
    ∧ NoDup (persisted w).
Proof.
  apply (recorded_queries_read_back (Ix:=unit)
           ["n1"; "n2"; "n3"; "n1"; "n4"; "n5"; "n6"; "n7"; "n8"; "n9"; "n10"; "n11"; "n12"]).
  repeat constructor; discriminate.
Defined.

(** ** Extraction and the live cache *)

Section ExtractionFrame.
Context {Ix : Type} (host : Host).
Implicit Types w : World Ix.

Ltac run_monad :=
  unfold mbind, M_bind, mret, M_ret, bind, ret, lift, modify, throw, gets,
    console_warn; simpl.

Ltac split_cases :=
  repeat match goal with
         | |- context [match ?x with _ => _ end] => destruct x eqn:?; simpl
         | |- context [if ?x then _ else _] => destruct x eqn:?; simpl
         end.

Ltac grown :=
  first [ by (exists []; rewrite app_nil_r; split; [reflexivity|simpl; lia])
        | by (eexists; split; [reflexivity|simpl; lia]) ].

(** Reading the content asks the host for at most one read and writes
    nothing else. *)
Lemma read_content_frame path file w :
  let w' := snd (read_content (Ix:=Ix) host path file w) in
  same_state w w' ∧ console w' = console w ∧ grows_by_at_most_one (calls w) (calls w').
Proof.
  destruct w as [docs flag db ns cs cl ar].
  unfold read_content, read_file, same_state, grows_by_at_most_one. run_monad.
  split_cases; run_monad; split_cases; split_and!; try reflexivity; grown.
Qed.

Lemma getAndMapIndexedDocument_frame path w :
  let w' := snd (getAndMapIndexedDocument host path w) in
  same_state w w'
  ∧ grows_by_at_most_one (console w) (console w')
  ∧ grows_by_at_most_one (calls w) (calls w').
Proof.
  unfold getAndMapIndexedDocument.
  destruct (List.find _ _) as [file|].
  2:{ simpl. unfold same_state, grows_by_at_most_one. split_and!; try reflexivity; grown. }
  unfold mbind, M_bind, bind.
  pose proof (read_content_frame path file w) as (Hsame & Hcons & Hcalls).
  destruct (read_content host path file w) as [[[| |s]|e] w1]; simpl in *;
    destruct w1 as [docs1 flag1 db1 ns1 cs1 cl1 ar1]; simpl in *;
    unfold same_state in *; simpl in *; rewrite <- Hcons;
    (split; [done|]); (split; [unfold grows_by_at_most_one; grown|done]).
Qed.

End ExtractionFrame.

(** X6. Extraction only reads: it leaves the live cache, the flag, the
    database, the notices and the callers' arrays as they are, asks the
    host for at most one read and logs at most one line. *)
Theorem extraction_only_reads {Ix : Type} (host : Host) (path : string) (w : World Ix) :
  ∃ r w', getAndMapIndexedDocument host path w = (r, w')
        ∧ same_state w w'
        ∧ grows_by_at_most_one (console w) (console w')
        ∧ grows_by_at_most_one (calls w) (calls w').
Proof.
  pose proof (getAndMapIndexedDocument_frame host path w) as H.
  destruct (getAndMapIndexedDocument host path w) as [r w'] eqn:Hrun.
  exists r, w'. by split.
Qed.

Section LiveCacheMore.
Context {Ix : Type} (host : Host).
Implicit Types w : World Ix.

(** What a successful extraction returns is filed under the path asked. *)
Lemma extracted_path path w doc w' :
  getAndMapIndexedDocument host path w = (Returned doc, w') → doc_path doc = path.
Proof.
  unfold getAndMapIndexedDocument.
  destruct (List.find _ _) as [file|] eqn:Hfind; [|done].
  apply find_file_path in Hfind.
  unfold mbind, M_bind, bind.
  destruct (read_content host path file w) as [[[| |s]|e] w1]; simpl; try done;
    intros [= <- _]; done.
Qed.

(** The two ways [addToLiveCache] ends. *)
Lemma addToLiveCache_runs path w :
  match getAndMapIndexedDocument host path w with
  | (Returned doc, w1) =>
      addToLiveCache host path w = (Returned tt, set_documents (<[path := doc]>) w1)
  | (Thrown e, w1) =>
      addToLiveCache host path w
      = (Returned tt,
         add_log (mkLog LevelWarn "Omnisearch: Error while adding to live cache" (Some e)) w1)
  end.
Proof.
  unfold addToLiveCache, try_catch, mbind, M_bind, bind.
  by destruct (getAndMapIndexedDocument host path w) as [[doc|e] w1].
Qed.

Lemma getDocument_cached path w d :
  documents w !! path = Some d → getDocument host path w = (Returned (JValue d), w).
Proof.
  intros Hd. unfold getDocument, documents_get, mbind, M_bind, bind, gets.
  rewrite bool_decide_eq_true_2 by (rewrite Hd; eauto). by rewrite Hd.
Qed.

Lemma cache_keys_ok_insert path doc w1 w :
  documents w1 = documents w → doc_path doc = path → cache_keys_ok w →
  cache_keys_ok (set_documents (<[path := doc]>) w1).
Proof.
  intros Hdocs Hpath Hok p d. simpl. rewrite Hdocs.
  destruct (decide (path = p)) as [<-|Hne].
  - rewrite lookup_insert_eq. by intros [= <-].
  - rewrite lookup_insert_ne by done. apply Hok.
Qed.

Lemma addToLiveCache_keys path w :
  cache_keys_ok w → cache_keys_ok (snd (addToLiveCache host path w)).
Proof.
  intros Hok. pose proof (addToLiveCache_runs path w) as Hrun.
  pose proof (getAndMapIndexedDocument_frame host path w) as ((Hdocs & _) & _).
  destruct (getAndMapIndexedDocument host path w) as [[doc|e] w1] eqn:Hext;
    rewrite Hrun; simpl in *.
  - apply (cache_keys_ok_insert path doc w1 w); try done. by eapply extracted_path.
  - intros p d. destruct w1. simpl in *. rewrite Hdocs. apply Hok.
Qed.

End LiveCacheMore.

(** X7. A document that extraction returns describes a file of the vault
    with the path asked for: it carries that path, the file's modification
    time and the file's basename without diacritics. *)
Theorem extraction_describes_the_file {Ix : Type} (host : Host) (path : string)
    (w w' : World Ix) (doc : IndexedDocument) :
  getAndMapIndexedDocument host path w = (Returned doc, w') →
  ∃ file, file ∈ getFiles host
        ∧ file_path file = path
        ∧ doc_path doc = path
        ∧ doc_mtime doc = file_mtime file
        ∧ doc_basename doc = removeDiacritics host (file_basename file)
        ∧ doc_tags doc = getTagsFromMetadata host (getFileCache host file).
Proof.
  unfold getAndMapIndexedDocument.
  destruct (List.find _ _) as [file|] eqn:Hfind; [|done].
  pose proof (find_file_path host path file Hfind) as Hpath.
  apply find_some in Hfind as [Hin _]. apply list_elem_of_In in Hin.
  unfold mbind, M_bind, bind.
  destruct (read_content host path file w) as [[[| |s]|e] w1]; simpl; try done;
    intros [= <- _]; exists file; by split_and!.
Qed.

Lemma extraction_describes_the_file_witness :
  ∃ file, file ∈ getFiles (Sample.host None)
        ∧ file_path file = "papers/scan.pdf"
        ∧ doc_path Sample.scan_doc = "papers/scan.pdf"
        ∧ doc_mtime Sample.scan_doc = file_mtime file
        ∧ doc_basename Sample.scan_doc = removeDiacritics (Sample.host None) (file_basename file)
        ∧ doc_tags Sample.scan_doc
          = getTagsFromMetadata (Sample.host None) (getFileCache (Sample.host None) file).
Proof.
  apply (extraction_describes_the_file (Sample.host None) "papers/scan.pdf"
           (initial_world : World unit)
           (add_call (CallGetPdfText "papers/scan.pdf") initial_world)).
  vm_compute. reflexivity.
Defined.

(** X8. A path that is in the live cache is answered from the cache:
    [getDocument] returns the cached document and leaves the world as it
    is, so the vault is not read, whether or not it still has the file. *)
Theorem getDocument_answers_from_cache {Ix : Type} (host : Host) (path : string)
    (w : World Ix) (d : IndexedDocument) :
  documents w !! path = Some d →
  getDocument host path w = (Returned (JValue d), w).
Proof. apply getDocument_cached. Qed.

Lemma getDocument_answers_from_cache_witness :
  Forall (fun f => file_path f ≠ "gone.md") (getFiles (Sample.host None))
  ∧ getDocument (Sample.host None) "gone.md" Fixtures.cached_world
    = (Returned (JValue (mkDoc "gone.md" "gone" "old text" 5 [] EmptyString
                           EmptyString EmptyString EmptyString)),
       Fixtures.cached_world).
Proof.
  split; [repeat constructor; discriminate|].
  apply (getDocument_answers_from_cache (Sample.host None) "gone.md" Fixtures.cached_world).
  reflexivity.
Defined.

(** X9. A path that is not in the live cache and can be extracted is
    extracted once: [getDocument] returns the extracted document and files
    it under the path, and asked again it returns the same document without
    another read of the vault. *)
Theorem getDocument_fills_once {Ix : Type} (host : Host) (path : string)
    (w w1 : World Ix) (doc : IndexedDocument) :
  documents w !! path = None →
  getAndMapIndexedDocument host path w = (Returned doc, w1) →
  ∃ w', getDocument host path w = (Returned (JValue doc), w')
      ∧ documents w' = <[path := doc]> (documents w)
      ∧ calls w' = calls w1
      ∧ getDocument host path w' = (Returned (JValue doc), w').
Proof.
  intros Hmiss Hext.
  pose proof (getAndMapIndexedDocument_frame host path w) as ((Hdocs & _) & _).
  pose proof (addToLiveCache_runs host path w) as Hadd.
  rewrite Hext in Hdocs, Hadd. simpl in Hdocs.
  exists (set_documents (<[path := doc]>) w1).
  assert (Hin : documents (set_documents (<[path := doc]>) w1) !! path = Some doc)
    by (simpl; apply lookup_insert_eq).
  split_and!.
  - unfold getDocument, mbind, M_bind, bind, gets.
    rewrite Hmiss. rewrite bool_decide_eq_false_2 by (by intros [? ?]).
    rewrite Hadd. unfold documents_get, gets. by rewrite Hin.
  - simpl. by rewrite Hdocs.
  - reflexivity.
  - by apply getDocument_cached.
Qed.

Lemma getDocument_fills_once_witness :
  ∃ w', getDocument (Sample.host None) "papers/scan.pdf" (initial_world : World unit)
        = (Returned (JValue Sample.scan_doc), w')
      ∧ documents w' = <["papers/scan.pdf" := Sample.scan_doc]> (documents (initial_world : World unit))
      ∧ calls w' = calls (add_call (CallGetPdfText "papers/scan.pdf") (initial_world : World unit))
      ∧ getDocument (Sample.host None) "papers/scan.pdf" w' = (Returned (JValue Sample.scan_doc), w').
Proof.
  apply (getDocument_fills_once (Sample.host None) "papers/scan.pdf" initial_world
           (add_call (CallGetPdfText "papers/scan.pdf") initial_world)).
  - reflexivity.
  - vm_compute. reflexivity.
Defined.

(** X10. [addToLiveCache] never throws. When extraction succeeds the
    document is filed under the path, replacing what was there; when it
    fails the live cache stays as it was and the error is the last line
    of the console. Entries under other paths, the flag, the database, the
    notices and the callers' arrays are never touched. *)
Theorem addToLiveCache_absorbs_errors {Ix : Type} (host : Host) (path : string)
    (w : World Ix) :
  ∃ w', addToLiveCache host path w = (Returned tt, w')
      ∧ (∀ p, p ≠ path → documents w' !! p = documents w !! p)
      ∧ match fst (getAndMapIndexedDocument host path w) with
        | Returned doc => documents w' !! path = Some doc
        | Thrown e =>
            documents w' = documents w
            ∧ last (console w') = Some (mkLog LevelWarn
                 "Omnisearch: Error while adding to live cache" (Some e))
        end
      ∧ nextQueryIsEmpty w' = nextQueryIsEmpty w
      ∧ database w' = database w
      ∧ notices w' = notices w
      ∧ arrays w' = arrays w.
Proof.
  pose proof (addToLiveCache_runs host path w) as Hrun.
  pose proof (getAndMapIndexedDocument_frame host path w)
    as ((Hdocs & Hflag & Hdb & Hns & Har) & _).
  destruct (getAndMapIndexedDocument host path w) as [[doc|e] w1]; simpl in *;
    rewrite Hrun; eexists; (split; [reflexivity|]);
    destruct w1 as [docs1 flag1 db1 ns1 cs1 cl1 ar1]; simpl in *; subst;
    split_and!; try done.
  - intros p Hp. by apply lookup_insert_ne.
  - apply lookup_insert_eq.
  - apply last_snoc.
Qed.

(** X11. The live cache keeps every document under its own path:
    [addToLiveCache], [removeFromLiveCache] and [getDocument] all preserve
    that. *)
Theorem cache_keys_stay_paths {Ix : Type} (host : Host) (path : string) (w : World Ix) :
  cache_keys_ok w →
  cache_keys_ok (snd (addToLiveCache host path w))
  ∧ cache_keys_ok (snd (removeFromLiveCache path w))
  ∧ cache_keys_ok (snd (getDocument host path w)).
Proof.
  intros Hok. split_and!.
  - by apply addToLiveCache_keys.
  - intros p d. simpl. intros Hd. apply lookup_delete_Some in Hd as [_ Hd]. by apply Hok.
  - destruct (documents w !! path) as [d|] eqn:Hd.
    + by rewrite (getDocument_cached host path w d Hd).
    + unfold getDocument, mbind, M_bind, bind, gets.
      rewrite Hd. rewrite bool_decide_eq_false_2 by (by intros [? ?]).
      pose proof (addToLiveCache_keys host path w Hok) as Hadd.
      pose proof (addToLiveCache_runs host path w) as Hrun.
      destruct (getAndMapIndexedDocument host path w) as [[doc|e] w1];
        rewrite Hrun in Hadd |- *; done.
Qed.

Lemma cache_keys_stay_paths_witness :
  cache_keys_ok (snd (addToLiveCache (Sample.host None) "photo.png" Fixtures.cached_world))
  ∧ cache_keys_ok (snd (removeFromLiveCache "photo.png" Fixtures.cached_world))
  ∧ cache_keys_ok (snd (getDocument (Sample.host None) "photo.png" Fixtures.cached_world)).
Proof.
  apply (cache_keys_stay_paths (Sample.host None) "photo.png" Fixtures.cached_world).
  intros p d. simpl. intros Hd. apply lookup_singleton_Some in Hd as [<- <-]. reflexivity.
Defined.

(** ** The content of text files *)

Section TextContent.
Context {Ix : Type} (host : Host).
Implicit Types w : World Ix.

(** [read_content] for a plain-text path, and for a canvas path. *)
Lemma read_content_plaintext path file :
  isFilePlaintext host path = true →
  read_content (Ix:=Ix) host path file = (s ← read_file host file; mret (JValue s)).
Proof. intros H. unfold read_content. by rewrite H. Qed.

Lemma read_content_canvas path file :
  isFilePlaintext host path = false → isFileCanvas host path = true →
  read_content (Ix:=Ix) host path file
  = (raw ← read_file host file;
     canvas ← lift (JSON_parse host raw);
     content ← lift (canvas_text canvas);
     mret (JValue content)).
Proof. intros H1 H2. unfold read_content. by rewrite H1, H2. Qed.

Lemma strip_excalidraw_other md content :
  truthy (frontmatter md ≫= (.!! "excalidraw-plugin")) = false →
  strip_excalidraw md content = content.
Proof. intros H. unfold strip_excalidraw. by rewrite H. Qed.

End TextContent.

(** X12. A plain-text or canvas file is read from the vault with one
    [cachedRead] and nothing else: neither a registered text extractor nor
    the built-in readers are asked, and an error of the read is the error
    of the extraction. *)
Theorem text_files_bypass_the_readers {Ix : Type} (host : Host) (path : string)
    (file : TFile) (w : World Ix) :
  List.find (fun f => String.eqb (file_path f) path) (getFiles host) = Some file →
  isFilePlaintext host path = true ∨ isFileCanvas host path = true →
  let run := getAndMapIndexedDocument host path w in
  calls_made w run = [CallCachedRead path]
  ∧ (∀ e, cachedRead host file = Thrown e → fst run = Thrown e).
Proof.
  intros Hfind Hkind run. subst run.
  pose proof (find_file_path host path file Hfind) as Hpath.
  unfold getAndMapIndexedDocument. rewrite Hfind.
  destruct w as [docs flag db ns cs cl ar].
  destruct (isFilePlaintext host path) eqn:Hplain.
  - rewrite (read_content_plaintext host path file Hplain).
    unfold read_file, calls_made, mbind, M_bind, bind, lift, modify; simpl. rewrite Hpath.
    destruct (cachedRead host file) as [text|e]; simpl; rewrite skipn_length_app;
      split; try done; by intros e' [= <-].
  - destruct Hkind as [|Hcanvas]; [done|].
    rewrite (read_content_canvas host path file Hplain Hcanvas).
    unfold read_file, calls_made, mbind, M_bind, bind, lift, modify; simpl. rewrite Hpath.
    destruct (cachedRead host file) as [text|e]; simpl.
    + destruct (JSON_parse host text) as [canvas|e]; simpl;
        [destruct (canvas_text canvas) as [content|e]; simpl|];
        rewrite skipn_length_app; split; done.
    + rewrite skipn_length_app. split; [done|]. by intros e' [= <-].
Qed.

Lemma text_files_bypass_the_readers_witness :
  let host := Fixtures.host (Some Fixtures.silent) in
  let run := getAndMapIndexedDocument host "board.canvas" (initial_world : World unit) in
  calls_made initial_world run = [CallCachedRead "board.canvas"]
  ∧ (∀ e, cachedRead host Fixtures.board = Thrown e → fst run = Thrown e).
Proof.
  apply (text_files_bypass_the_readers (Fixtures.host (Some Fixtures.silent)) "board.canvas"
           Fixtures.board (initial_world : World unit)).
  - reflexivity.
  - right. reflexivity.
Defined.

(** X13. A plain-text note that is no excalidraw drawing is indexed with
    its whole text, diacritics removed: its comment sections stay in the
    content, and nothing is logged. *)
Theorem plain_note_keeps_its_text {Ix : Type} (host : Host) (path : string)
    (file : TFile) (w : World Ix) (text : string) :
  List.find (fun f => String.eqb (file_path f) path) (getFiles host) = Some file →
  isFilePlaintext host path = true →
  cachedRead host file = Returned text →
  (∀ md, getFileCache host file = Some md →
         truthy (frontmatter md ≫= (.!! "excalidraw-plugin")) = false) →
  ∃ doc w', getAndMapIndexedDocument host path w = (Returned doc, w')
          ∧ doc_content doc = removeDiacritics host text
          ∧ console w' = console w.
Proof.
  intros Hfind Hplain Hread Hmd.
  unfold getAndMapIndexedDocument. rewrite Hfind.
  rewrite (read_content_plaintext host path file Hplain).
  unfold read_file, mbind, M_bind, bind, lift, modify; simpl. rewrite Hread. simpl.
  eexists. eexists. split; [reflexivity|]. simpl. split; [|by destruct w].
  destruct (getFileCache host file) as [md|]; [|done].
  by apply strip_excalidraw_other, Hmd.
Qed.

Lemma plain_note_keeps_its_text_witness :
  ∃ doc w', getAndMapIndexedDocument (Fixtures.host None) "note.md"
              (initial_world : World unit) = (Returned doc, w')
          ∧ doc_content doc = removeDiacritics (Fixtures.host None) "ab%%X%%cd"
          ∧ console w' = console (initial_world : World unit).
Proof.
  apply (plain_note_keeps_its_text (Fixtures.host None) "note.md" Fixtures.note
           (initial_world : World unit) "ab%%X%%cd").
  - reflexivity.
  - reflexivity.
  - reflexivity.
  - intros md Hmd. injection Hmd as <-. vm_compute. reflexivity.
Defined.

Section CanvasFacts.

Lemma push_nodes_typed ns typed :
  Forall2 is_node ns typed →
  ∀ texts, push_nodes ns texts = Returned (texts ++ map wrap (node_texts typed))%list.
Proof.
  induction 1 as [|j n ns typed (props & -> & Hn) _ IH]; intros texts; simpl.
  - by rewrite app_nil_r.
  - destruct n as [text|file|type]; simpl.
    + destruct Hn as [-> ->]. simpl. rewrite IH. by rewrite <- app_assoc.
    + destruct Hn as [-> ->]. simpl. rewrite IH. by rewrite <- app_assoc.
    + destruct Hn as (-> & Htext & Hfile). simpl.
      rewrite (proj2 (String.eqb_neq type "text") Htext).
      rewrite (proj2 (String.eqb_neq type "file") Hfile). apply IH.
Qed.

Lemma edges_typed es typed :
  Forall2 is_edge es typed →
  ∃ kept, filter_labelled es = Returned kept
        ∧ ∀ texts, push_labels kept texts
                   = Returned (texts ++ map wrap (edge_labels typed))%list.
Proof.
  induction 1 as [|j e es typed (props & -> & He) _ (kept & Hkept & Hpush)]; simpl.
  - exists []. split; [done|]. intros texts. simpl. by rewrite app_nil_r.
  - rewrite He, Hkept. simpl. destruct (edge_label e) as [l|]; simpl.
    + destruct (JsString.falsy l) eqn:Hl; simpl.
      * exists kept. by split.
      * exists (JsonObject props :: kept). split; [done|]. intros texts. simpl.
        rewrite He. simpl. rewrite Hpush. by rewrite <- app_assoc.
    + exists kept. by split.
Qed.

Lemma join_strings sep (l : list string) :
  JsValue.join sep (map wrap l) = Returned (String.concat sep l).
Proof.
  unfold JsValue.join.
  assert (H : JsValue.collect (map JsValue.piece (map wrap l)) = Returned l).
  { induction l as [|x l IH]; simpl; [done|]. by rewrite IH. }
  by rewrite H.
Qed.

(** The text of a parsed value that has the declared shape. *)
Lemma canvas_text_typed json canvas :
  is_canvas json canvas →
  canvas_text json = Returned (JsString.join JsString.crlf (canvas_texts canvas)).
Proof.
  intros (props & ns & es & -> & Hns & Hes & Hnodes & Hedges).
  destruct (edges_typed es (edges canvas) Hedges) as (kept & Hkept & Hpush).
  unfold canvas_text. simpl. rewrite Hns. simpl.
  rewrite (push_nodes_typed ns (nodes canvas) Hnodes). simpl.
  rewrite Hes. simpl. rewrite Hkept. simpl. rewrite Hpush. simpl.
  unfold canvas_texts. rewrite <- map_app. apply join_strings.
Qed.

Lemma canvas_texts_members canvas t :
  t ∈ canvas_texts canvas
  ↔ TextNode t ∈ nodes canvas
    ∨ FileNode t ∈ nodes canvas
    ∨ (t ≠ EmptyString ∧ mkEdge (Some t) ∈ edges canvas).
Proof.
  unfold canvas_texts, node_texts, edge_labels.
  rewrite elem_of_app, !list_elem_of_In, !in_flat_map.
  split.
  - intros [(node & Hin & Ht)|(edge & Hin & Ht)].
    + destruct node as [text|f|ty]; simpl in Ht.
      * destruct Ht as [->|[]]. by left.
      * destruct Ht as [->|[]]. right; by left.
      * done.
    + right; right. destruct edge as [[l|]]; simpl in Ht; [|done].
      destruct (JsString.falsy l) eqn:Hl; [done|]. destruct Ht as [->|[]].
      split; [|done].
      intros ->. vm_compute in Hl. discriminate.
  - intros [Hin|[Hin|[Hne Hin]]].
    + left. exists (TextNode t). split; [done|]. by left.
    + left. exists (FileNode t). split; [done|]. by left.
    + right. exists (mkEdge (Some t)). split; [done|]. simpl.
      rewrite (falsy_false t Hne). by left.
Qed.

End CanvasFacts.

(** X14. For a canvas file without metadata, by what [JSON.parse] makes of
    its text. If it throws, extraction throws that error. If it returns an
    object without [nodes], extraction throws the TypeError of iterating
    [undefined]; if the nodes are as declared and the object has no
    [edges], it throws the TypeError of reading [filter] of [undefined].
    If the value has the shape that [obsidian/canvas] declares, extraction
    returns a document whose content is the pieces joined by CRLF, without
    diacritics, and a string is one of the pieces exactly when it is the
    text of a text node, the file of a file node or the non-empty label of
    an edge. *)
Theorem canvas_content {Ix : Type} (host : Host) (path : string) (file : TFile)
    (w : World Ix) (raw : string) :
  List.find (fun f => String.eqb (file_path f) path) (getFiles host) = Some file →
  isFilePlaintext host path = false →
  isFileCanvas host path = true →
  cachedRead host file = Returned raw →
  getFileCache host file = None →
  let run := getAndMapIndexedDocument host path w in
  match JSON_parse host raw with
  | Thrown e => fst run = Thrown e
  | Returned json =>
      (∀ props, json = JsonObject props → JsValue.assoc "nodes" props = None →
         fst run = Thrown (TypeError "canvas.nodes is not iterable"))
      ∧ (∀ props ns typed, json = JsonObject props →
           JsValue.assoc "nodes" props = Some (JsonArray ns) → Forall2 is_node ns typed →
           JsValue.assoc "edges" props = None →
           fst run = Thrown (TypeError "Cannot read properties of undefined (reading 'filter')"))
      ∧ (∀ canvas, is_canvas json canvas →
           (∃ doc w', run = (Returned doc, w')
                    ∧ doc_content doc
                      = removeDiacritics host
                          (JsString.join JsString.crlf (canvas_texts canvas)))
           ∧ (∀ t, t ∈ canvas_texts canvas
                   ↔ TextNode t ∈ nodes canvas
                     ∨ FileNode t ∈ nodes canvas
                     ∨ (t ≠ EmptyString ∧ mkEdge (Some t) ∈ edges canvas)))
  end.
Proof.
  intros Hfind Hplain Hcanvas Hread Hmd run. subst run.
  unfold getAndMapIndexedDocument. rewrite Hfind.
  rewrite (read_content_canvas host path file Hplain Hcanvas).
  unfold read_file, mbind, M_bind, bind, lift, modify; simpl. rewrite Hread. simpl.
  destruct (JSON_parse host raw) as [json|e]; simpl; [|done]. split_and!.
  - intros props -> Hnodes. unfold canvas_text. simpl. by rewrite Hnodes.
  - intros props ns typed -> Hns Htyped Hedges. unfold canvas_text. simpl.
    rewrite Hns. simpl. rewrite (push_nodes_typed ns typed Htyped). simpl.
    by rewrite Hedges.
  - intros canvas Hshape. split; [|apply canvas_texts_members].
    rewrite (canvas_text_typed json canvas Hshape). simpl.
    eexists. eexists. split; [reflexivity|]. simpl. by rewrite Hmd.
Qed.

Lemma canvas_content_witness :
  let host := Fixtures.host None in
  let run := getAndMapIndexedDocument host "board.canvas" (initial_world : World unit) in
  is_canvas Fixtures.board_json Fixtures.board_canvas
  ∧ match JSON_parse host "{canvas}" with
    | Thrown e => fst run = Thrown e
    | Returned json =>
      (∀ props, json = JsonObject props → JsValue.assoc "nodes" props = None →
         fst run = Thrown (TypeError "canvas.nodes is not iterable"))
      ∧ (∀ props ns typed, json = JsonObject props →
           JsValue.assoc "nodes" props = Some (JsonArray ns) → Forall2 is_node ns typed →
           JsValue.assoc "edges" props = None →
           fst run = Thrown (TypeError "Cannot read properties of undefined (reading 'filter')"))
      ∧ (∀ canvas, is_canvas json canvas →
           (∃ doc w', run = (Returned doc, w')
                    ∧ doc_content doc
                      = removeDiacritics host
                          (JsString.join JsString.crlf (canvas_texts canvas)))
           ∧ (∀ t, t ∈ canvas_texts canvas
                   ↔ TextNode t ∈ nodes canvas
                     ∨ FileNode t ∈ nodes canvas
                     ∨ (t ≠ EmptyString ∧ mkEdge (Some t) ∈ edges canvas)))
    end.
Proof.
  split.
  - eexists. eexists. eexists. split; [reflexivity|].
    split; [reflexivity|]. split; [reflexivity|]. simpl. split.
    + repeat constructor; eexists; (split; [reflexivity|]); simpl;
        repeat split; discriminate || reflexivity.
    + repeat constructor; eexists; (split; [reflexivity|]); reflexivity.
  - apply (canvas_content (Fixtures.host None) "board.canvas" Fixtures.board
             (initial_world : World unit) "{canvas}"); reflexivity.
Defined.

(** The canvas of the fixtures: three lines, nodes before edges; and the
    canvas without [edges], which throws. *)
Example canvas_content_of_the_fixtures :
  fst (getAndMapIndexedDocument (Fixtures.host None) "board.canvas"
         (initial_world : World unit))
  = Returned (mkDoc "board.canvas" "board"
                ("hello" +:+ JsString.crlf +:+ "img.png" +:+ JsString.crlf +:+ "link")
                1667383500000 [] EmptyString EmptyString EmptyString EmptyString)
  ∧ fst (getAndMapIndexedDocument (Fixtures.host None) "edgeless.canvas"
           (initial_world : World unit))
    = Thrown (TypeError "Cannot read properties of undefined (reading 'filter')").
Proof. split; vm_compute; reflexivity. Qed.

(** X15. A reader that answers [null] or [undefined] does not fail the
    extraction: the document is built from the empty text and one warning
    is logged. *)
Theorem null_answer_gives_empty_content {Ix : Type} (host : Host) (path : string)
    (file : TFile) (w w1 : World Ix) (answer : nullable string) :
  List.find (fun f => String.eqb (file_path f) path) (getFiles host) = Some file →
  read_content host path file w = (Returned answer, w1) →
  answer = JNull ∨ answer = JUndefined →
  ∃ doc w', getAndMapIndexedDocument host path w = (Returned doc, w')
          ∧ doc_content doc
            = match getFileCache host file with
              | Some md => strip_excalidraw md (removeDiacritics host EmptyString)
              | None => removeDiacritics host EmptyString
              end
          ∧ console w'
            = (console w1 ++ [mkLog LevelWarn
                 ("Omnisearch: " +:+ show_nullable answer +:+ " content for file "
                  +:+ file_path file) None])%list.
Proof.
  intros Hfind Hread Hnull.
  unfold getAndMapIndexedDocument. rewrite Hfind.
  unfold mbind, M_bind, bind. rewrite Hread.
  destruct Hnull as [-> | ->]; simpl; destruct w1; eexists; eexists;
    (split; [reflexivity|]); simpl; split; reflexivity.
Qed.

Lemma null_answer_gives_empty_content_witness :
  let host := Sample.host (Some Fixtures.silent) in
  let w1 : World unit := add_call (CallExtractText "photo.png") initial_world in
  ∃ doc w', getAndMapIndexedDocument host "photo.png" (initial_world : World unit)
            = (Returned doc, w')
          ∧ doc_content doc
            = match getFileCache host Sample.photo with
              | Some md => strip_excalidraw md (removeDiacritics host EmptyString)
              | None => removeDiacritics host EmptyString
              end
          ∧ console w'
            = (console w1 ++ [mkLog LevelWarn
                 ("Omnisearch: " +:+ show_nullable JNull +:+ " content for file "
                  +:+ file_path Sample.photo) None])%list.
Proof.
  apply (null_answer_gives_empty_content (Sample.host (Some Fixtures.silent)) "photo.png"
           Sample.photo (initial_world : World unit)
           (add_call (CallExtractText "photo.png") initial_world) JNull).
  - reflexivity.
  - reflexivity.
  - by left.
Defined.

(** ** Cutting a comment out of a drawing *)

Module SubstringFacts.
Import JsString.

Lemma list_of_append (a b : string) :
  list_ascii_of_string (a +:+ b) = (list_ascii_of_string a ++ list_ascii_of_string b)%list.
Proof. induction a as [|c a IH]; simpl; [done|]. by rewrite IH. Qed.

Lemma length_list_of (s : string) :
  List.length (list_ascii_of_string s) = String.length s.
Proof. induction s as [|c s IH]; simpl; [done|]. by rewrite IH. Qed.

(** [l.substring(0, b)] is the first [b] elements, whatever [b]. *)
Lemma substring_list_prefix {A} (l : list A) (b : Z) :
  substring_list l 0 b = firstn (Z.to_nat b) l.
Proof.
  unfold substring_list, clamp. set (len := Z.of_nat (List.length l)).
  assert (0 ≤ len) by (unfold len; lia).
  replace (Z.min (Z.max 0 (Z.min 0 len)) (Z.max 0 (Z.min b len))) with 0 by lia.
  replace (Z.max (Z.max 0 (Z.min 0 len)) (Z.max 0 (Z.min b len)) - 0)
    with (Z.max 0 (Z.min b len)) by lia.
  change (skipn (Z.to_nat 0) l) with l. destruct (Z.le_gt_cases b len).
  - f_equal. lia.
  - rewrite !firstn_all2; [done | unfold len in *; lia | unfold len in *; lia].
Qed.

(** [l.substring(a)] is what follows the first [a] elements, whatever [a]. *)
Lemma substring_list_suffix {A} (l : list A) (a : Z) :
  substring_list l a (Z.of_nat (List.length l)) = skipn (Z.to_nat a) l.
Proof.
  unfold substring_list, clamp. set (len := Z.of_nat (List.length l)).
  assert (0 ≤ len) by (unfold len; lia).
  replace (Z.min (Z.max 0 (Z.min a len)) (Z.max 0 (Z.min len len)))
    with (Z.max 0 (Z.min a len)) by lia.
  replace (Z.max (Z.max 0 (Z.min a len)) (Z.max 0 (Z.min len len))) with len by lia.
  rewrite firstn_all2 by (rewrite length_skipn; unfold len; lia).
  destruct (Z.le_gt_cases a len).
  - f_equal. lia.
  - rewrite !skipn_all2; [done | unfold len in *; lia | unfold len in *; lia].
Qed.

End SubstringFacts.

(** X16. One turn of the loop over the comment sections keeps the text
    before offset [start - 1] and the text from offset [end] on, whatever
    the offsets. For a comment that lies inside the text and does not
    start at offset 0, the result is shorter by the length of the comment
    plus one: the character before the comment goes with it. *)
Theorem cut_comment_keeps (content : string) (p : Pos) :
  let l := list_ascii_of_string content in
  let s := loc_offset (pos_start p) in
  let e := loc_offset (pos_end p) in
  1 ≤ s → s ≤ e → e ≤ Z.of_nat (String.length content) →
  list_ascii_of_string (cut_comment content p)
    = (firstn (Z.to_nat (s - 1)) l ++ skipn (Z.to_nat e) l)%list
  ∧ Z.of_nat (String.length (cut_comment content p))
    = Z.of_nat (String.length content) - (e - s + 1).
Proof.
  intros l s e Hs Hse He.
  assert (Hlist : list_ascii_of_string (cut_comment content p)
                  = (firstn (Z.to_nat (s - 1)) l ++ skipn (Z.to_nat e) l)%list).
  { unfold cut_comment, JsString.substring_from, JsString.substring.
    rewrite SubstringFacts.list_of_append, !list_ascii_of_string_of_list_ascii.
    rewrite <- (SubstringFacts.length_list_of content).
    by rewrite SubstringFacts.substring_list_prefix, SubstringFacts.substring_list_suffix. }
  split; [done|].
  rewrite <- (SubstringFacts.length_list_of (cut_comment content p)), Hlist.
  rewrite length_app, length_firstn, length_skipn.
  rewrite <- (SubstringFacts.length_list_of content) in *. fold l in He |- *. lia.
Qed.

Lemma cut_comment_keeps_witness :
  let p := mkPos (mkLoc 0 2 2) (mkLoc 0 7 7) in
  let l := list_ascii_of_string Sample.drawing_text in
  list_ascii_of_string (cut_comment Sample.drawing_text p)
    = (firstn (Z.to_nat (2 - 1)) l ++ skipn (Z.to_nat 7) l)%list
  ∧ Z.of_nat (String.length (cut_comment Sample.drawing_text p))
    = Z.of_nat (String.length Sample.drawing_text) - (7 - 2 + 1).
Proof.
  apply (cut_comment_keeps Sample.drawing_text (mkPos (mkLoc 0 2 2) (mkLoc 0 7 7)));
    simpl; lia.
Defined.

(** ** The checksum and the snapshot *)

Section ChecksumMore.

(** An array in ascending path order is left as it is by the sort. *)
Lemma array_sort_sorted_id l : Sorted path_le l → array_sort by_path l = l.
Proof.
  induction 1 as [|x l Hl IH Hhd]; [done|].
  change (array_sort by_path (x :: l)) with (sort_insert by_path x (array_sort by_path l)).
  rewrite IH.
  destruct Hhd as [|y l' Hxy]; [done|]. simpl.
  by rewrite (proj2 (by_path_le x y) Hxy).
Qed.

Lemma array_sort_idempotent l :
  array_sort by_path (array_sort by_path l) = array_sort by_path l.
Proof. apply array_sort_sorted_id, StronglySorted_Sorted, array_sort_sorted. Qed.

End ChecksumMore.

(** X17. Asking for the checksum of the same array a second time gives the
    same checksum and changes nothing any more: the first call has put the
    array in order, the second finds it so. *)
Theorem checksum_twice {Ix : Type} (host : Host) (w : World Ix) (r : positive)
    (l : list IndexedDocument) :
  arrays w !! r = Some l →
  ∃ checksum w1,
    getDocumentsChecksum host r w = (Returned checksum, w1)
    ∧ getDocumentsChecksum host r w1 = (Returned checksum, w1).
Proof.
  intros Hl. rewrite (getDocumentsChecksum_runs host w r l Hl).
  eexists. eexists. split; [reflexivity|].
  rewrite (getDocumentsChecksum_runs host _ r (array_sort by_path l))
    by (simpl; apply lookup_insert_eq).
  rewrite array_sort_idempotent. f_equal.
  destruct w as [docs flag db ns cs cl ar]. unfold set_arrays; simpl.
  by rewrite insert_insert_eq.
Qed.

Lemma checksum_twice_witness :
  ∃ checksum w1,
    getDocumentsChecksum (Sample.host None) 2%positive Sample.two_arrays_world
      = (Returned checksum, w1)
    ∧ getDocumentsChecksum (Sample.host None) 2%positive w1 = (Returned checksum, w1).
Proof.
  apply (checksum_twice (Sample.host None) Sample.two_arrays_world 2%positive
           [Sample.doc_b; Sample.doc_c; Sample.doc_a]).
  reflexivity.
Defined.

(** X18. [getMinisearchCache] always returns and never writes to the
    database. It returns [null] exactly when the database rejects the
    request, and then shows the cache notice; otherwise it leaves the world
    as it is and returns the first row, or [undefined] when there is none. *)
Theorem getMinisearchCache_outcomes {Ix : Type} (w : World Ix) :
  ∃ r w', getMinisearchCache w = (Returned r, w')
        ∧ database w' = database w
        ∧ (r = JNull ↔ is_Some (db_fault (database w)))
        ∧ (is_Some (db_fault (database w)) →
           notices w' = (notices w ++ [cache_notice])%list)
        ∧ (db_fault (database w) = None →
           w' = w ∧ r = match minisearch (database w) with
                        | row :: _ => JValue row
                        | [] => JUndefined
                        end).
Proof.
  destruct (db_fault (database w)) as [e|] eqn:Hf.
  - destruct (getMinisearchCache_fault w e Hf) as (w' & Hrun & Hns & Hdb).
    exists JNull, w'. split_and!; try done.
  - rewrite (getMinisearchCache_reads w Hf). eexists. eexists.
    split_and!; try done; try (by intros [? ?]).
    by destruct (minisearch (database w)).
Qed.

(** X19. [writeMinisearchCache] writes to the snapshot table and the
    console only: the search history, the flag, the live cache and the
    notices are as before. While the database rejects its requests the
    write fails with the database's error and nothing changes, so the rows
    of the table are still there. *)
Theorem writeMinisearchCache_frame {Ix : Type} (host : Host) (w : World Ix)
    (engine : MiniSearch Ix) (indexed : list (string * Z)) :
  ∃ r w', writeMinisearchCache host engine indexed w = (r, w')
        ∧ searchHistory (database w') = searchHistory (database w)
        ∧ nextQueryIsEmpty w' = nextQueryIsEmpty w
        ∧ documents w' = documents w
        ∧ notices w' = notices w
        ∧ (∀ e, db_fault (database w) = Some e → r = Thrown e ∧ w' = w).
Proof.
  destruct (db_fault (database w)) as [e|] eqn:Hf.
  - rewrite (writeMinisearchCache_fault host w engine indexed e Hf).
    eexists. eexists. split_and!; try done. by intros e' [= <-].
  - destruct w as [docs flag [hist ms fault] ns cs cl ar]. simpl in Hf. subst fault.
    eexists. eexists. split_and!; try reflexivity. done.
Qed.

(** ** The rename handler *)

(** X20. The rename handler acts on markdown files only: for a folder, or
    a file whose path does not end in ".md", it leaves the index and the
    live cache as they are, so such a file stays listed under its old
    path. *)
Theorem rename_skips_other_files
    (extract : Synchronizer.TAbstractFile → option IndexedDocument)
    (file : Synchronizer.TAbstractFile) (oldPath : string) (st : Synchronizer.Index) :
  match file with
  | Synchronizer.AFile f => JsString.endsWith (file_path f) ".md" = false
  | Synchronizer.AFolder _ _ => True
  end →
  Synchronizer.on_rename extract file oldPath st = st
  ∧ Synchronizer.engine_docs (Synchronizer.on_rename extract file oldPath st) !! oldPath
    = Synchronizer.engine_docs st !! oldPath.
Proof.
  intros Hkind.
  assert (H : Synchronizer.on_rename extract file oldPath st = st).
  { destruct file as [f|p n]; simpl; [by rewrite Hkind|done]. }
  by rewrite H.
Qed.

Lemma rename_skips_other_files_witness :
  let st := Synchronizer.mkIndex {[ "scan.pdf" := Sample.scan_doc ]}
                                 {[ "scan.pdf" := Sample.scan_doc ]} ∅ in
  let extract := fun _ : Synchronizer.TAbstractFile => Some Sample.scan_doc in
  Synchronizer.on_rename extract (Synchronizer.AFile Sample.scan) "scan.pdf" st = st
  ∧ Synchronizer.engine_docs
      (Synchronizer.on_rename extract (Synchronizer.AFile Sample.scan) "scan.pdf" st)
      !! "scan.pdf"
    = Synchronizer.engine_docs st !! "scan.pdf".
Proof.
  apply (rename_skips_other_files (fun _ => Some Sample.scan_doc)
           (Synchronizer.AFile Sample.scan) "scan.pdf").
  reflexivity.
Defined.

(** ** Dropping a path from the live cache *)



(** X22. A path that names no file of the vault is refused before anything
    is read: extraction throws "Invalid file path" with the path in quotes
    and leaves the world, the record of host reads included, as it is. *)
Theorem unknown_path_is_refused {Ix : Type} (host : Host) (path : string) (w : World Ix) :
  Forall (fun f => file_path f ≠ path) (getFiles host) →
  getAndMapIndexedDocument host path w
  = (Thrown (Error ("Invalid file path: " +:+ JsString.dquote +:+ path +:+ JsString.dquote)), w)
  ∧ calls_made w (getAndMapIndexedDocument host path w) = [].
Proof.
  intros Hno. rewrite (getAndMapIndexedDocument_no_file host path w Hno).
  split; [done|]. unfold calls_made. simpl. apply skipn_all.
Qed.

Lemma unknown_path_is_refused_witness :
  getAndMapIndexedDocument (Sample.host None) "missing.md" (initial_world : World unit)
  = (Thrown (Error ("Invalid file path: " +:+ JsString.dquote +:+ "missing.md"
                    +:+ JsString.dquote)), initial_world)
  ∧ calls_made (initial_world : World unit)
      (getAndMapIndexedDocument (Sample.host None) "missing.md" initial_world) = [].
Proof.
  apply (unknown_path_is_refused (Sample.host None) "missing.md" (initial_world : World unit)).
  repeat constructor; discriminate.
Defined.
